(** * nctools: DXF reader and bounding boxes

    A shallow embedding of [src/nctools/dxf.py] (the reader half) and of
    [src/nctools/bbox.py], with the properties stated about them.

    Conventions of the embedding
    - a Python list of text lines is a [list string];
    - a raised exception is a value of [exn]; a computation that may raise
      has type [result A];
    - the DXF reader is written over any structure of numbers with the
      operations the code applies to them ([Dxf.numbers]), so that what is
      proved of it does not rest on how floating-point arithmetic rounds;
      the samples are evaluated in real arithmetic ([Dxf.exact]);
    - the numbers stored in a bounding box are exact rationals together
      with the two infinities and NaN ([BBox.num]). *)

From Stdlib Require Import List String Ascii Bool Arith ZArith Lia.
From Stdlib Require Import Sorted Permutation.
From Stdlib Require Import QArith Qminmax Lqa.
From Stdlib Require Import Reals Lra.
Import ListNotations.

Local Open Scope string_scope.
Local Open Scope list_scope.
Local Open Scope bool_scope.
Local Open Scope nat_scope.

(** ** Exceptions and results *)

(** The exceptions the modelled code can raise.  The [ValueError]s are kept
    apart by origin: [list.index] ("x is not in list"), [float()], [int()],
    and an explicit [raise ValueError(msg)]. *)
Inductive exn : Type :=
| NotInList (x : string)
| BadFloat (s : string)
| BadInt (s : string)
| ValueErrorMsg (msg : string)
| IndexError
| TypeError
| DegenerateGeometry.

(** What [except ValueError] catches. *)
Definition is_ValueError (e : exn) : bool :=
  match e with
  | NotInList _ | BadFloat _ | BadInt _ | ValueErrorMsg _ => true
  | IndexError | TypeError | DegenerateGeometry => false
  end.

Inductive result (A : Type) : Type :=
| Ok (a : A)
| Raise (e : exn).
Arguments Ok {A} a.
Arguments Raise {A} e.

Definition bind {A B : Type} (m : result A) (k : A -> result B) : result B :=
  match m with
  | Ok a => k a
  | Raise e => Raise e
  end.

Declare Scope py_scope.
Delimit Scope py_scope with py.
Notation "x <- m ;; k" := (bind m (fun x => k))
  (at level 61, m at next level, right associativity) : py_scope.
Notation "' p <- m ;; k" := (bind m (fun p => k))
  (at level 61, p pattern, m at next level, right associativity) : py_scope.
Local Open Scope py_scope.

(** [try: body except ValueError: handler]. *)
Definition try_ValueError {A : Type} (body : result A) (handler : A) : result A :=
  match body with
  | Ok a => Ok a
  | Raise e => if is_ValueError e then Ok handler else Raise e
  end.

Definition succeeds {A : Type} (m : result A) : Prop := exists a, m = Ok a.
Definition fails {A : Type} (m : result A) : Prop := exists e, m = Raise e.

(** A [for] loop that appends the items produced for each element and stops
    at the first exception. *)
Fixpoint for_each {A B : Type} (f : A -> result (list B)) (l : list A)
  : result (list B) :=
  match l with
  | [] => Ok []
  | a :: l' => bs <- f a ;; rest <- for_each f l' ;; Ok (bs ++ rest)
  end.

(** ** Lists of lines *)

(** [l.index(x, start)]: the first position at or after [start] holding [x]. *)
Fixpoint index_aux (x : string) (l : list string) (pos : nat) : option nat :=
  match l with
  | [] => None
  | y :: l' => if String.eqb y x then Some pos else index_aux x l' (S pos)
  end.

Definition index (l : list string) (x : string) (start : nat) : result nat :=
  match index_aux x (skipn start l) start with
  | Some p => Ok p
  | None => Raise (NotInList x)
  end.

(** [l[n]] for a non-negative [n]. *)
Definition getitem {A : Type} (l : list A) (n : nat) : result A :=
  match nth_error l n with
  | Some a => Ok a
  | None => Raise IndexError
  end.

(** [[num for num, ln in enumerate(l) if ln == x]]. *)
Fixpoint positions_aux (x : string) (l : list string) (pos : nat) : list nat :=
  match l with
  | [] => []
  | y :: l' =>
      if String.eqb y x then pos :: positions_aux x l' (S pos)
      else positions_aux x l' (S pos)
  end.

Definition positions (x : string) (l : list string) : list nat :=
  positions_aux x l 0.

(** [l[a:b]] for non-negative bounds. *)
Definition slice {A : Type} (l : list A) (a b : nat) : list A :=
  firstn (b - a) (skipn a l).

(** ** Text to numbers *)

Definition is_space (c : ascii) : bool :=
  let n := nat_of_ascii c in
  (n =? 32) || ((9 <=? n) && (n <=? 13)) || ((28 <=? n) && (n <=? 31)).

Fixpoint lstrip (s : list ascii) : list ascii :=
  match s with
  | c :: s' => if is_space c then lstrip s' else s
  | [] => []
  end.

(** [s.strip()], on the ASCII white space. *)
Definition strip (s : string) : string :=
  string_of_list_ascii
    (rev (lstrip (rev (lstrip (list_ascii_of_string s))))).

Definition digit_of (c : ascii) : option Z :=
  let n := nat_of_ascii c in
  if (48 <=? n) && (n <=? 57) then Some (Z.of_nat (n - 48)) else None.

(** Reads the longest prefix of digits: its value on top of [acc], how many
    digits it has, and what follows. *)
Fixpoint digits (s : list ascii) (acc : Z) (count : nat)
  : Z * nat * list ascii :=
  match s with
  | c :: s' =>
      match digit_of c with
      | Some d => digits s' (10 * acc + d)%Z (S count)
      | None => (acc, count, s)
      end
  | [] => (acc, count, [])
  end.

Definition sign_of (s : list ascii) : bool * list ascii :=
  match s with
  | "-"%char :: s' => (true, s')
  | "+"%char :: s' => (false, s')
  | _ => (false, s)
  end.

(** [int(s)] on an already stripped decimal literal. *)
Definition int (s : string) : result Z :=
  let '(neg, body) := sign_of (list_ascii_of_string s) in
  match digits body 0 0 with
  | (v, S _, []) => Ok (if neg then - v else v)%Z
  | _ => Raise (BadInt s)
  end.

(** A decimal literal as mantissa and power of ten:
    [sign] digits [. digits] [(e|E) [sign] digits]. *)
Definition exponent_of (s : list ascii) : option Z :=
  match s with
  | [] => Some 0%Z
  | c :: s' =>
      if (Ascii.eqb c "e" || Ascii.eqb c "E")%bool then
        let '(neg, body) := sign_of s' in
        match digits body 0 0 with
        | (v, S _, []) => Some (if neg then - v else v)%Z
        | _ => None
        end
      else None
  end.

Definition decimal_of (s : string) : option (Z * Z) :=
  let '(neg, body) := sign_of (list_ascii_of_string s) in
  let '(ip, ni, rest) := digits body 0 0 in
  let '(m, nf, rest') :=
    match rest with
    | "."%char :: frac => digits frac ip 0
    | _ => (ip, 0, rest)
    end in
  match ni + nf with
  | 0 => None
  | S _ =>
      match exponent_of rest' with
      | Some e => Some ((if neg then - m else m)%Z, (e - Z.of_nat nf)%Z)
      | None => None
      end
  end.

(** * The DXF reader *)

Module Dxf.

(** ** Numbers *)

(** The numbers of the reader and what the code does with them.  Python
    computes with floating-point numbers: conversions and sums are rounded,
    and a value can be an infinity or NaN.  The reader is written over any
    structure of numbers with these operations; [exact] below is the one of
    real arithmetic without rounding, on which the samples are evaluated.

    The fields stand for [float(s)] on a stripped line, the literal [0],
    [2*math.pi], [math.radians(d)], [a + b], [a < b], [a == b] and
    [math.atan(b)*4]; [arcdata] and [on_circle] stand for the geometry of
    [nctools/ent.py], which is not among the sources. *)
Class numbers : Type := {
  number : Type;
  float : string -> result number;
  zero : number;
  two_pi : number;
  radians : number -> number;
  plus : number -> number -> number;
  ltb : number -> number -> bool;
  eqb : number -> number -> bool;
  atan_times_4 : number -> number;
  arcdata : number * number -> number * number -> number
            -> result ((number * number) * number * number * number);
  on_circle : number -> number -> number -> number -> number * number;
  eqb_zero : eqb zero zero = true
}.

(** *** Real arithmetic *)

Module Exact.

Local Open Scope R_scope.

(** The real number a decimal literal denotes. *)
Definition real_of_decimal (d : Z * Z) : R :=
  let '(m, e) := d in
  if (0 <=? e)%Z then IZR (m * 10 ^ e) else IZR m / IZR (10 ^ (- e)).

(** [float(s)] on an already stripped line.  The literals [inf] and [nan]
    and digit groups with underscores, which Python also accepts, have no
    counterpart here and count as malformed. *)
Definition float (s : string) : result R :=
  match decimal_of s with
  | Some d => Ok (real_of_decimal d)
  | None => Raise (BadFloat s)
  end.

Definition Rltb (a b : R) : bool := if Rlt_dec a b then true else false.
Definition Reqb (a b : R) : bool := if Req_dec_T a b then true else false.

(** [math.radians] and [2*math.pi]. *)
Definition radians (deg : R) : R := deg * PI / 180.
Definition two_pi : R := 2 * PI.

(** The angle under which the offset [(dx, dy)] is seen. *)
Definition angle_of (dx dy : R) : R :=
  if Rlt_dec 0 dx then atan (dy / dx)
  else if Rlt_dec dx 0 then
         if Rlt_dec dy 0 then atan (dy / dx) - PI else atan (dy / dx) + PI
  else if Rlt_dec 0 dy then PI / 2
  else if Rlt_dec dy 0 then - (PI / 2)
  else 0.

(** Modelled from the spec: [ent.arcdata(sp, ep, a)], the arc through [sp]
    and [ep] with included angle [a] (section 4.1): the chord is the distance
    of the two points, the radius follows from the chord and the included
    angle, the centre is the midpoint of the chord moved perpendicular to it
    by [radius * cos (a / 2)] on the side the sign of [a] selects, and the
    angles are those of [sp] and [ep] seen from the centre.  A chord of
    length zero is an error. *)
Definition arcdata (sp ep : R * R) (a : R) : result ((R * R) * R * R * R) :=
  let '(xs, ys) := sp in
  let '(xe, ye) := ep in
  let chord := sqrt ((xe - xs) * (xe - xs) + (ye - ys) * (ye - ys)) in
  if Reqb chord 0 then Raise DegenerateGeometry
  else
    let radius := chord / (2 * sin (Rabs a / 2)) in
    let off := radius * cos (a / 2) / chord in
    let side := if Rltb 0 a then 1 else -1 in
    let xc := (xs + xe) / 2 - side * off * (ye - ys) in
    let yc := (ys + ye) / 2 + side * off * (xe - xs) in
    Ok ((xc, yc), radius,
        angle_of (xs - xc) (ys - yc), angle_of (xe - xc) (ye - yc)).

(** Modelled from the spec: the point of the circle around [(cx, cy)] with
    radius [r] at the angle [a] ([nctools/ent.py] is not among the
    sources). *)
Definition on_circle (cx cy r a : R) : R * R :=
  (cx + r * cos a, cy + r * sin a).

End Exact.

#[export] Instance exact : numbers := {|
  number := R;
  float := Exact.float;
  zero := 0%R;
  two_pi := Exact.two_pi;
  radians := Exact.radians;
  plus := Rplus;
  ltb := Exact.Rltb;
  eqb := Exact.Reqb;
  atan_times_4 := fun b => (atan b * 4)%R;
  arcdata := Exact.arcdata;
  on_circle := Exact.on_circle;
  eqb_zero :=
    match Req_dec_T 0 0 as d return (if d then true else false) = true with
    | left _ => eq_refl
    | right n => False_ind _ (n eq_refl)
    end
|}.

Section Reader.

Context {N : numbers}.

(** ** Entities *)

Definition point : Type := number * number.

(** Modelled from the spec: the classes [ent.Line] and [ent.Arc]
    ([nctools/ent.py] is not among the sources).  A value records the
    arguments the reader passes to the constructor: the end points (or the
    centre, the radius and the two angles), the index and the layer. *)
Inductive entity : Type :=
| Line (x1 y1 x2 y2 : number) (idx : nat) (layer : string)
| Arc (cx cy radius a0 a1 : number) (idx : nat) (layer : string).

Definition index_of (e : entity) : nat :=
  match e with
  | Line _ _ _ _ i _ => i
  | Arc _ _ _ _ _ i _ => i
  end.

(** Modelled from the spec: the end points of an entity, which for an arc
    follow from its centre, radius and angles ([nctools/ent.py] is not among
    the sources). *)
Definition start_point (e : entity) : point :=
  match e with
  | Line x1 y1 _ _ _ _ => (x1, y1)
  | Arc cx cy r a0 _ _ _ => on_circle cx cy r a0
  end.

Definition end_point (e : entity) : point :=
  match e with
  | Line _ _ x2 y2 _ _ => (x2, y2)
  | Arc cx cy r _ a1 _ _ => on_circle cx cy r a1
  end.

(** ** The four scans *)

(** [float(lines[num])]. *)
Definition float_at (lines : list string) (num : nat) : result number :=
  s <- getitem lines num ;; float s.

(** One [LINE] record, from the marker at [i]. *)
Definition get_line (lines : list string) (i : nat) : result (list entity) :=
  num <- index lines "8" i ;;
  let num := S num in
  layer <- getitem lines num ;;
  num <- index lines "10" num ;;
  let num := S num in
  x1 <- float_at lines num ;;
  num <- index lines "20" num ;;
  let num := S num in
  y1 <- float_at lines num ;;
  num <- index lines "11" num ;;
  let num := S num in
  x2 <- float_at lines num ;;
  num <- index lines "21" num ;;
  let num := S num in
  y2 <- float_at lines num ;;
  Ok [Line x1 y1 x2 y2 i layer].

Definition _get_lines (lines : list string) : result (list entity) :=
  for_each (get_line lines) (positions "LINE" lines).

(** One [ARC] record, from the marker at [i]. *)
Definition get_arc (lines : list string) (i : nat) : result (list entity) :=
  num <- index lines "8" i ;;
  let num := S num in
  layer <- getitem lines num ;;
  num <- index lines "10" num ;;
  let num := S num in
  cx <- float_at lines num ;;
  num <- index lines "20" num ;;
  let num := S num in
  cy <- float_at lines num ;;
  num <- index lines "40" num ;;
  let num := S num in
  r <- float_at lines num ;;
  num <- index lines "50" num ;;
  let num := S num in
  d1 <- float_at lines num ;;
  let a1 := radians d1 in
  num <- index lines "51" num ;;
  let num := S num in
  d2 <- float_at lines num ;;
  let a2 := radians d2 in
  let a2 := if ltb a2 a1 then plus a2 two_pi else a2 in
  Ok [Arc cx cy r a1 a2 i layer].

Definition _get_arcs (lines : list string) : result (list entity) :=
  for_each (get_arc lines) (positions "ARC" lines).

(** One [CIRCLE] record, from the marker at [i]. *)
Definition get_circle (lines : list string) (i : nat) : result (list entity) :=
  num <- index lines "8" i ;;
  let num := S num in
  layer <- getitem lines num ;;
  num <- index lines "10" num ;;
  let num := S num in
  cx <- float_at lines num ;;
  num <- index lines "20" num ;;
  let num := S num in
  cy <- float_at lines num ;;
  num <- index lines "40" num ;;
  let num := S num in
  r <- float_at lines num ;;
  Ok [Arc cx cy r zero two_pi i layer].

Definition _get_circles (lines : list string) : result (list entity) :=
  for_each (get_circle lines) (positions "CIRCLE" lines).

(** The window of one vertex: from the [VERTEX] marker at [j] to the boundary
    [k].  Gives the point and the included angle of the segment that starts
    there. *)
Definition get_vertex (lines : list string) (w : nat * nat)
  : result (list (point * number)) :=
  let '(j, k) := w in
  num <- index lines "10" j ;;
  let num := S num in
  x <- float_at lines num ;;
  num <- index lines "20" num ;;
  let num := S num in
  y <- float_at lines num ;;
  a <- try_ValueError
         (num <- index lines "42" num ;;
          let num := S num in
          if num <? k then b <- float_at lines num ;; Ok (atan_times_4 b)
          else Ok zero)
         zero ;;
  Ok [((x, y), a)].

(** [zip(pnts, pnts[1:], angles)]. *)
Fixpoint zip3 {A B C : Type} (l1 : list A) (l2 : list B) (l3 : list C)
  : list (A * B * C) :=
  match l1, l2, l3 with
  | a :: l1', b :: l2', c :: l3' => (a, b, c) :: zip3 l1' l2' l3'
  | _, _, _ => []
  end.

Definition get_segment (i : nat) (layer : string) (s : point * point * number)
  : result (list entity) :=
  let '(sp, ep, a) := s in
  if eqb a zero then Ok [Line (fst sp) (snd sp) (fst ep) (snd ep) i layer]
  else
    '(c, r, a0, a1) <- arcdata sp ep a ;;
    Ok [Arc (fst c) (snd c) r a0 a1 i layer].

(** One [POLYLINE] record, from the marker at [i]. *)
Definition get_polyline (lines : list string) (i : nat)
  : result (list entity) :=
  num <- index lines "8" i ;;
  let num := S num in
  layer <- getitem lines num ;;
  closed <- try_ValueError
              (num <- index lines "70" num ;;
               let num := S num in
               s <- getitem lines num ;;
               flags <- int s ;;
               Ok (negb (Z.land flags 1 =? 0)%Z))
              false ;;
  end_ <- index lines "SEQEND" i ;;
  let vi := positions "VERTEX" lines in
  let vi := combine vi (tl vi ++ [end_]) in
  pa <- for_each (get_vertex lines) vi ;;
  let pnts := map fst pa in
  let angles := map snd pa in
  pnts <- (if closed : bool then p0 <- getitem pnts 0 ;; Ok (pnts ++ [p0])
           else Ok pnts) ;;
  let ends := zip3 pnts (tl pnts) angles in
  for_each (get_segment i layer) ends.

Definition _get_polylines (lines : list string) : result (list entity) :=
  for_each (get_polyline lines) (positions "POLYLINE" lines).

(** ** The reader *)

(** [entities.sort(key=lambda x: x.index)]: a stable sort on the index. *)
Fixpoint insert_by_index (e : entity) (l : list entity) : list entity :=
  match l with
  | [] => [e]
  | h :: t =>
      if index_of e <=? index_of h then e :: l
      else h :: insert_by_index e t
  end.

Definition sort_by_index (l : list entity) : list entity :=
  fold_right insert_by_index [] l.

(** The lines between [ENTITIES] and the next [ENDSEC]. *)
Definition entities_section (data : list string) : result (list string) :=
  soe <- index data "ENTITIES" 0 ;;
  let soe := S soe in
  eoe <- index data "ENDSEC" soe ;;
  Ok (slice data soe eoe).

(** The four scans of the section, concatenated and sorted. *)
Definition decode (lines : list string) : result (list entity) :=
  e1 <- _get_lines lines ;;
  e2 <- _get_arcs lines ;;
  e3 <- _get_circles lines ;;
  e4 <- _get_polylines lines ;;
  Ok (sort_by_index (e1 ++ e2 ++ e3 ++ e4)).

(** [reader], on the lines read from the file. *)
Definition reader (file : list string) : result (list entity) :=
  let data := map strip file in
  lines <- entities_section data ;;
  decode lines.

End Reader.

Arguments Line {N} (x1 y1 x2 y2)%_R idx%_nat layer%_string.
Arguments Arc {N} (cx cy radius a0 a1)%_R idx%_nat layer%_string.

End Dxf.

(** * Bounding boxes *)

Module BBox.

Local Open Scope Q_scope.

(** A number as Python holds it: a finite one, an infinity, or NaN.  Finite
    numbers are kept exact: the comparisons, [min] and [max] of the code do
    not round, and the one subtraction in [width] and [height] is taken
    without its rounding. *)
Inductive num : Type :=
| Fin (q : Q)
| PInf
| NInf
| NaN.

Coercion Fin : Q >-> num.

(** [a < b], [a <= b] and [a == b]: every comparison with NaN is false. *)
Definition num_ltb (a b : num) : bool :=
  match a, b with
  | Fin x, Fin y => negb (Qle_bool y x)
  | Fin _, PInf | NInf, Fin _ | NInf, PInf => true
  | _, _ => false
  end.

Definition num_leb (a b : num) : bool :=
  match a, b with
  | Fin x, Fin y => Qle_bool x y
  | Fin _, PInf | NInf, Fin _ | NInf, PInf | NInf, NInf | PInf, PInf => true
  | _, _ => false
  end.

Definition num_eqb (a b : num) : bool :=
  match a, b with
  | Fin x, Fin y => Qeq_bool x y
  | PInf, PInf | NInf, NInf => true
  | _, _ => false
  end.

(** [a - b]: an infinity less itself is NaN. *)
Definition num_sub (a b : num) : num :=
  match a, b with
  | Fin x, Fin y => Fin (x - y)
  | NaN, _ | _, NaN => NaN
  | PInf, PInf | NInf, NInf => NaN
  | PInf, _ | _, NInf => PInf
  | NInf, _ | _, PInf => NInf
  end.

Definition is_nan (a : num) : bool :=
  match a with
  | NaN => true
  | _ => false
  end.

Definition finite (a : num) : bool :=
  match a with
  | Fin _ => true
  | _ => false
  end.

Declare Scope num_scope.
Delimit Scope num_scope with num.
Bind Scope num_scope with num.
Notation "a <= b" := (num_leb a b = true) : num_scope.
Notation "a <= b <= c" := (num_leb a b = true /\ num_leb b c = true)
  : num_scope.
Notation "a == b" := (num_eqb a b = true) : num_scope.

(** Whole numbers are written as such. *)
Definition num_of_Z (z : Z) : num := Fin (inject_Z z).

Definition Z_of_num (a : num) : option Z :=
  match a with
  | Fin (Qmake z 1) => Some z
  | _ => None
  end.

Number Notation num num_of_Z Z_of_num : num_scope.

(** A point is a tuple of numbers, of any length. *)
Definition tuple : Type := list num.

(** What callers pass as [pnts]: a list of tuples, or one bare tuple of
    numbers. *)
Inductive pnts_arg : Type :=
| Points (ps : list tuple)
| Bare (p : tuple).

Record BBox : Type := mkBBox {
  minx : num; maxx : num;
  miny : num; maxy : num;
  minz : option num; maxz : option num;
  dim : nat
}.

(** [len(pnts) in (2, 3) and isinstance(pnts[0], (int, float))]: true of a
    bare tuple of two or three numbers, and then [pnts = [pnts]]. *)
Definition is_single (pnts : pnts_arg) : bool :=
  match pnts with
  | Bare p => (List.length p =? 2)%nat || (List.length p =? 3)%nat
  | Points _ => false
  end.

(** [len(pnts[0])] once a single point has been wrapped: a bare tuple that
    was not wrapped holds numbers, which have no length. *)
Definition first_len (pnts : pnts_arg) : result nat :=
  match pnts with
  | Points ps => p <- getitem ps 0 ;; Ok (List.length p)
  | Bare p => if is_single pnts then Ok (List.length p)
              else _ <- getitem p 0 ;; Raise TypeError
  end.

(** The list of points after [pnts = [pnts]]; asked for only when
    [first_len] has succeeded. *)
Definition as_list (pnts : pnts_arg) : list tuple :=
  match pnts with
  | Points ps => ps
  | Bare p => [p]
  end.

(** [zip] applied to the unpacked points: the columns of the points, as
    many as the shortest point has coordinates. *)
Fixpoint heads (ps : list tuple) : option (list num) :=
  match ps with
  | [] => Some []
  | p :: ps' =>
      match p, heads ps' with
      | x :: _, Some hs => Some (x :: hs)
      | _, _ => None
      end
  end.

Fixpoint zip_star_aux (fuel : nat) (ps : list tuple) : list (list num) :=
  match fuel with
  | O => []
  | S fuel' =>
      match heads ps with
      | Some hs => hs :: zip_star_aux fuel' (map (@tl num) ps)
      | None => []
      end
  end.

Definition zip_star (ps : list tuple) : list (list num) :=
  zip_star_aux (List.length (hd [] ps)) ps.

(** [min(x)] and [max(x)] of a sequence: the first item is kept until a
    later one compares smaller (for [max], greater), so a NaN that comes
    first stays and a NaN that comes later is passed over. *)
Definition min_step (m v : num) : num := if num_ltb v m then v else m.
Definition max_step (m v : num) : num := if num_ltb m v then v else m.

Definition py_min (l : list num) : result num :=
  match l with
  | [] => Raise (ValueErrorMsg "min() arg is an empty sequence")
  | x :: l' => Ok (fold_left min_step l' x)
  end.

Definition py_max (l : list num) : result num :=
  match l with
  | [] => Raise (ValueErrorMsg "max() arg is an empty sequence")
  | x :: l' => Ok (fold_left max_step l' x)
  end.

(** [BBox.__init__] on a list of points that is not empty. *)
Definition init_list (ps : list tuple) : result BBox :=
  let n := List.length (hd [] ps) in
  if (n =? 2)%nat then
    match zip_star ps with
    | [x; y] =>
        x0 <- py_min x ;; x1 <- py_max x ;;
        y0 <- py_min y ;; y1 <- py_max y ;;
        Ok (mkBBox x0 x1 y0 y1 None None 2)
    | _ => Raise (ValueErrorMsg "unpack")
    end
  else if (n =? 3)%nat then
    match zip_star ps with
    | [x; y; z] =>
        x0 <- py_min x ;; x1 <- py_max x ;;
        y0 <- py_min y ;; y1 <- py_max y ;;
        z0 <- py_min z ;; z1 <- py_max z ;;
        Ok (mkBBox x0 x1 y0 y1 (Some z0) (Some z1) 3)
    | _ => Raise (ValueErrorMsg "unpack")
    end
  else Raise (ValueErrorMsg "pnts must contain 2-tuples or 3-tuples").

Definition is_empty (pnts : pnts_arg) : bool :=
  match pnts with
  | Points [] | Bare [] => true
  | _ => false
  end.

(** [BBox(pnts)]. *)
Definition init (pnts : pnts_arg) : result BBox :=
  if is_empty pnts then Raise (ValueErrorMsg "no points to create BBox")
  else
    _ <- first_len pnts ;;
    init_list (as_list pnts).

(** [self.update(pnts)]: the box afterwards. *)
Definition update (self : BBox) (pnts : pnts_arg) : result BBox :=
  n <- first_len pnts ;;
  let tp := as_list pnts in
  if negb (dim self =? n)%nat then
    Raise (ValueErrorMsg "dimension of pnts[0] not conform bbox.")
  else if (dim self =? 2)%nat then
    init_list (tp ++ [[minx self; miny self]; [maxx self; maxy self]])
  else
    match minz self, maxz self with
    | Some z0, Some z1 =>
        init_list (tp ++ [[minx self; miny self; z0];
                          [maxx self; maxy self; z1]])
    | _, _ => Raise TypeError
    end.

(** [a <= v <= b]. *)
Definition between (a v b : num) : bool := num_leb a v && num_leb v b.

(** One element of the comprehension of [inside]: [and] evaluates the next
    coordinate only when the earlier ones are in range. *)
Definition inside2 (self : BBox) (p : tuple) : result bool :=
  x <- getitem p 0 ;;
  if between (minx self) x (maxx self) then
    y <- getitem p 1 ;; Ok (between (miny self) y (maxy self))
  else Ok false.

Definition inside3 (self : BBox) (p : tuple) : result bool :=
  x <- getitem p 0 ;;
  if between (minx self) x (maxx self) then
    y <- getitem p 1 ;;
    if between (miny self) y (maxy self) then
      z <- getitem p 2 ;;
      match minz self, maxz self with
      | Some z0, Some z1 => Ok (between z0 z z1)
      | _, _ => Raise TypeError
      end
    else Ok false
  else Ok false.

(** What [inside] returns: one boolean, or a list of them. *)
Inductive answer : Type :=
| One (b : bool)
| Many (bs : list bool).

(** [self.inside(pnts)]. *)
Definition inside (self : BBox) (pnts : pnts_arg) : result answer :=
  let single := is_single pnts in
  n <- first_len pnts ;;
  if negb (n =? dim self)%nat then
    Raise (ValueErrorMsg "dimension of pnts[0] not conform bbox.")
  else
    rv <- for_each
            (fun p => b <- (if (dim self =? 2)%nat then inside2 self p
                            else inside3 self p) ;; Ok [b])
            (as_list pnts) ;;
    if single then b <- getitem rv 0 ;; Ok (One b) else Ok (Many rv).

Definition width (self : BBox) : num := num_sub (maxx self) (minx self).
Definition height (self : BBox) : num := num_sub (maxy self) (miny self).

(** [self.points]: the two corners.  A box whose dimension is not 2 and
    that holds no z range would put [None] in its corners, which fails as
    soon as the corners are compared; no box the constructor builds is like
    that. *)
Definition points (self : BBox) : result (list tuple) :=
  if (dim self =? 2)%nat then
    Ok [[minx self; miny self]; [maxx self; maxy self]]
  else
    match minz self, maxz self with
    | Some z0, Some z1 =>
        Ok [[minx self; miny self; z0]; [maxx self; maxy self; z1]]
    | _, _ => Raise TypeError
    end.

(** [merge(bbs)]. *)
Definition merge (bbs : list BBox) : result BBox :=
  pnts <- for_each points bbs ;;
  init (Points pnts).

End BBox.

(** * Specification vocabulary *)

Module DxfSpec.

Import Dxf.

(** [p] is the first position at or after [start] that holds [c]. *)
Definition first_from (lines : list string) (c : string) (start p : nat)
  : Prop :=
  (start <= p)%nat /\ nth_error lines p = Some c /\
  forall q, (start <= q < p)%nat -> nth_error lines q <> Some c.

(** The four markers that start an entity. *)
Definition entity_markers : list string :=
  ["LINE"; "ARC"; "CIRCLE"; "POLYLINE"].

Definition is_entity_marker (s : string) : bool :=
  existsb (String.eqb s) entity_markers.

(** *** Records of LINE entities *)

Definition line_codes : list string := ["8"; "10"; "20"; "11"; "21"].

(** The lines of a record: those that follow its marker, up to the next
    entity marker. *)
Fixpoint until_marker (l : list string) : list string :=
  match l with
  | [] => []
  | s :: l' => if is_entity_marker s then [] else s :: until_marker l'
  end.

Definition record_at (lines : list string) (i : nat) : list string :=
  until_marker (skipn (S i) lines).

(** *** The layout of a POLYLINE record *)

(** The words that start or end a record. *)
Definition boundaries : list string :=
  ["LINE"; "ARC"; "CIRCLE"; "POLYLINE"; "VERTEX"; "SEQEND"].

Definition is_boundary (s : string) : bool :=
  existsb (String.eqb s) boundaries.

(** None of the lines is the start or the end of a record. *)
Definition quiet (l : list string) : Prop :=
  forallb (fun s => negb (is_boundary s)) l = true.

(** Nor is any of them the group code [c]. *)
Definition free_of (c : string) (l : list string) : Prop :=
  forallb (fun s => negb (is_boundary s || String.eqb s c)) l = true.

(** The lines of a POLYLINE record: the marker, the layer after code 8 and
    the flags after code 70, with whatever other lines before, between and
    after them. *)
Record polyline_lines : Type := mk_polyline {
  p_head : list string;
  p_layer : string;
  p_mid : list string;
  p_flags : string;
  p_rest : list string
}.

Definition polyline_text (p : polyline_lines) : list string :=
  "POLYLINE" :: p_head p ++ "8" :: p_layer p :: p_mid p
             ++ "70" :: p_flags p :: p_rest p.

(** The scan finds the layer and the flags of the record: no line is taken
    for a marker, and none before the code 8, or from the layer name to the
    code 70, is the code the scan is searching for there. *)
Definition polyline_laid_out (p : polyline_lines) : Prop :=
  free_of "8" (p_head p) /\
  free_of "70" (p_layer p :: p_mid p) /\
  quiet (p_flags p :: p_rest p).

(** The lines of a VERTEX record: the marker, x after code 10, y after code
    20 and, when there is one, the bulge after code 42, with whatever other
    lines before, between and after them. *)
Record vertex_lines : Type := mk_vertex {
  v_head : list string;
  v_x : string;
  v_mid : list string;
  v_y : string;
  v_tail : list string;
  v_bulge : option string;
  v_rest : list string
}.

Definition bulge_field (b : option string) : list string :=
  match b with
  | Some s => ["42"; s]
  | None => []
  end.

Definition vertex_text (v : vertex_lines) : list string :=
  "VERTEX" :: v_head v ++ "10" :: v_x v :: v_mid v
           ++ "20" :: v_y v :: v_tail v
           ++ bulge_field (v_bulge v) ++ v_rest v.

Definition vertex_laid_out (v : vertex_lines) : Prop :=
  free_of "10" (v_head v) /\
  free_of "20" (v_x v :: v_mid v) /\
  free_of "42" (v_y v :: v_tail v ++ v_rest v) /\
  quiet (bulge_field (v_bulge v)).

(** A section with one polyline of three vertices: the lines [pre], the
    POLYLINE record, the three VERTEX records, SEQEND and the lines
    [post]. *)
Definition polyline_section (pre : list string) (p : polyline_lines)
           (v0 v1 v2 : vertex_lines) (post : list string) : list string :=
  pre ++ polyline_text p
      ++ vertex_text v0 ++ vertex_text v1 ++ vertex_text v2
      ++ "SEQEND" :: post.

Definition section_laid_out (pre : list string) (p : polyline_lines)
           (v0 v1 v2 : vertex_lines) (post : list string) : Prop :=
  quiet pre /\ polyline_laid_out p /\
  vertex_laid_out v0 /\ vertex_laid_out v1 /\ vertex_laid_out v2 /\
  quiet post.

(** The flags of the record have bit 0 set. *)
Definition closed_flag (p : polyline_lines) : Prop :=
  exists z, int (p_flags p) = Ok z /\ Z.testbit z 0 = true.

Section Generic.

Context {N : numbers}.

(** The order the reader sorts by. *)
Definition index_le (a b : entity) : Prop := (index_of a <= index_of b)%nat.

(** The entity's index is a position that holds one of the four markers. *)
Definition at_marker (lines : list string) (e : entity) : Prop :=
  exists m, In m entity_markers /\ nth_error lines (index_of e) = Some m.

(** A LINE record that lacks one of its codes makes the scan fail. *)
Definition missing_field_detected (lines : list string) : Prop :=
  forall i c,
    nth_error lines i = Some "LINE" ->
    In c line_codes ->
    ~ In c (record_at lines i) ->
    fails (_get_lines lines).

(** How the scan finds the fields of the LINE at [i]: each code is the first
    one at or after the slot that follows the code before it. *)
Definition line_located (lines : list string) (i : nat) (e : entity) : Prop :=
  exists p8 p10 p20 p11 p21 layer x1 y1 x2 y2,
    first_from lines "8" i p8 /\
    getitem lines (S p8) = Ok layer /\
    first_from lines "10" (S p8) p10 /\
    float_at lines (S p10) = Ok x1 /\
    first_from lines "20" (S p10) p20 /\
    float_at lines (S p20) = Ok y1 /\
    first_from lines "11" (S p20) p11 /\
    float_at lines (S p11) = Ok x2 /\
    first_from lines "21" (S p11) p21 /\
    float_at lines (S p21) = Ok y2 /\
    e = Line x1 y1 x2 y2 i layer.

(** *** Angles of ARC entities *)

(** How the scan finds the fields of the ARC at the index of [e], and the
    arc it makes of them: the start angle is the conversion of the degrees
    after code 50, the end angle that of the degrees after code 51, with
    [2*math.pi] added when it is below the start angle. *)
Definition arc_located (lines : list string) (e : entity) : Prop :=
  exists p8 p10 p20 p40 p50 p51 layer cx cy r d1 d2,
    first_from lines "8" (index_of e) p8 /\
    getitem lines (S p8) = Ok layer /\
    first_from lines "10" (S p8) p10 /\
    float_at lines (S p10) = Ok cx /\
    first_from lines "20" (S p10) p20 /\
    float_at lines (S p20) = Ok cy /\
    first_from lines "40" (S p20) p40 /\
    float_at lines (S p40) = Ok r /\
    first_from lines "50" (S p40) p50 /\
    float_at lines (S p50) = Ok d1 /\
    first_from lines "51" (S p50) p51 /\
    float_at lines (S p51) = Ok d2 /\
    e = Arc cx cy r (radians d1)
            (if ltb (radians d2) (radians d1)
             then plus (radians d2) two_pi else radians d2)
            (index_of e) layer.

(** *** Vertices of POLYLINE entities *)

(** The VERTEX markers that belong to the POLYLINE at [i]: those strictly
    between the marker and its SEQEND at [end_]. *)
Definition vertices_between (lines : list string) (i end_ : nat) : list nat :=
  filter (fun v => (i <? v)%nat && (v <? end_)%nat) (positions "VERTEX" lines).

(** The POLYLINE scan as the specification words it: [get_polyline] with the
    vertex list bounded by the marker and its SEQEND. *)
Definition get_polyline_spec (lines : list string) (i : nat)
  : result (list entity) :=
  num <- index lines "8" i ;;
  let num := S num in
  layer <- getitem lines num ;;
  closed <- try_ValueError
              (num <- index lines "70" num ;;
               let num := S num in
               s <- getitem lines num ;;
               flags <- int s ;;
               Ok (negb (Z.land flags 1 =? 0)%Z))
              false ;;
  end_ <- index lines "SEQEND" i ;;
  let vi := vertices_between lines i end_ in
  let vi := combine vi (tl vi ++ [end_]) in
  pa <- for_each (get_vertex lines) vi ;;
  let pnts := map fst pa in
  let angles := map snd pa in
  pnts <- (if closed : bool then p0 <- getitem pnts 0 ;; Ok (pnts ++ [p0])
           else Ok pnts) ;;
  let ends := zip3 pnts (tl pnts) angles in
  for_each (get_segment i layer) ends.

Definition _get_polylines_spec (lines : list string) : result (list entity) :=
  for_each (get_polyline_spec lines) (positions "POLYLINE" lines).

(** *** Closed polylines *)

(** Each segment ends where the next one starts. *)
Fixpoint chained (l : list entity) : Prop :=
  match l with
  | a :: (b :: _) as t => end_point a = start_point b /\ chained t
  | _ => True
  end.

(** A chain whose last segment ends where the first one starts. *)
Definition closed_chain (l : list entity) : Prop :=
  chained l /\
  match l with
  | [] => True
  | a :: _ => end_point (last l a) = start_point a
  end.

(** The text of a coordinate pair. *)
Definition reads_point (x y : string) (p : point) : Prop :=
  float x = Ok (fst p) /\ float y = Ok (snd p).

(** A bulge field that is absent, or present with a value whose angle
    compares equal to zero. *)
Definition zero_bulge (b : option string) : Prop :=
  match b with
  | None => True
  | Some s => exists v, float s = Ok v /\ eqb (atan_times_4 v) zero = true
  end.

Definition triangle_lines (p0 p1 p2 : point) (i : nat) (layer : string)
  : list entity :=
  [Line (fst p0) (snd p0) (fst p1) (snd p1) i layer;
   Line (fst p1) (snd p1) (fst p2) (snd p2) i layer;
   Line (fst p2) (snd p2) (fst p0) (snd p0) i layer].

(** The vertex record gives the point [pt], with a bulge that is absent or
    reads as zero. *)
Definition straight_vertex (v : vertex_lines) (pt : point) : Prop :=
  reads_point (v_x v) (v_y v) pt /\ zero_bulge (v_bulge v).

(** Decoding gives three segments that form a closed chain. *)
Definition closed_triangle_decoded (lines : list string) : Prop :=
  exists a b c, decode lines = Ok [a; b; c] /\ closed_chain [a; b; c].

End Generic.

(** *** The span of an arc, in real arithmetic *)

Definition span (e : @entity exact) : R :=
  match e with
  | Arc _ _ _ a0 a1 _ _ => (a1 - a0)%R
  | Line _ _ _ _ _ _ => 0%R
  end.

Definition span_in_turn (e : @entity exact) : Prop :=
  (0 <= span e < Exact.two_pi)%R.

(** Every arc the scan returns spans less than a full turn. *)
Definition arcs_span_in_turn (lines : list string) : Prop :=
  forall r, _get_arcs lines = Ok r -> Forall span_in_turn r.

End DxfSpec.

(** ** Sample drawings *)

Module Samples.

Import Dxf.
Local Open Scope R_scope.

(** A file whose section is never closed. *)
Definition unclosed_file : list string :=
  ["  0"; "SECTION"; "  2"; "ENTITIES"; "  0"; "LINE"; "  8"; "A"].

(** A circle followed by a line. *)
Definition circle_then_line : list string :=
  ["  0"; "SECTION"; "  2"; "ENTITIES";
   "  0"; "CIRCLE"; "  8"; "A"; " 10"; "5.0"; " 20"; "5.0"; " 40"; "3.0";
   "  0"; "LINE"; "  8"; "B"; " 10"; "0.0"; " 20"; "0.0";
   " 11"; "1.0"; " 21"; "2.0";
   "  0"; "ENDSEC"; "  0"; "EOF"].

Definition circle_then_line_entities : list entity :=
  [Arc (50 / 10) (50 / 10) (30 / 10) 0 two_pi 1 "A";
   Line (0 / 10) (0 / 10) (10 / 10) (20 / 10) 11 "B"].

(** Two LINE records; the first one has no code 21. *)
Definition short_line_then_line : list string :=
  ["0"; "LINE"; "8"; "A"; "10"; "1.0"; "20"; "2.0"; "11"; "3.0";
   "0"; "LINE"; "8"; "B"; "10"; "5.0"; "20"; "6.0"; "11"; "7.0"; "21"; "8.5"].

(** A LINE record cut off after its first coordinate. *)
Definition cut_line : list string :=
  ["0"; "LINE"; "8"; "A"; "10"; "1.0"].

(** An arc from 0 to 360 degrees. *)
Definition arc_full_sweep : list string :=
  ["0"; "ARC"; "8"; "A"; "10"; "0.0"; "20"; "0.0"; "40"; "1.0";
   "50"; "0.0"; "51"; "360.0"].

(** An arc from 270 to 90 degrees. *)
Definition arc_through_zero : list string :=
  ["0"; "ARC"; "8"; "A"; "10"; "0.0"; "20"; "0.0"; "40"; "1.0";
   "50"; "270.0"; "51"; "90.0"].

(** Two open polylines of two vertices each. *)
Definition two_polylines : list string :=
  ["0"; "POLYLINE"; "8"; "A"; "66"; "1"; "70"; "0";
   "0"; "VERTEX"; "8"; "A"; "10"; "0.0"; "20"; "0.0";
   "0"; "VERTEX"; "8"; "A"; "10"; "1.0"; "20"; "0.0";
   "0"; "SEQEND";
   "0"; "POLYLINE"; "8"; "B"; "66"; "1"; "70"; "0";
   "0"; "VERTEX"; "8"; "B"; "10"; "5.0"; "20"; "5.0";
   "0"; "VERTEX"; "8"; "B"; "10"; "6.0"; "20"; "5.0";
   "0"; "SEQEND"].

(** A POLYLINE record with the closed flag. *)
Definition closed_polyline (layer : string) : DxfSpec.polyline_lines :=
  DxfSpec.mk_polyline [] layer ["66"; "1"] "1" ["0"].

Definition vertex (layer x y : string) (b : option string)
  : DxfSpec.vertex_lines :=
  DxfSpec.mk_vertex ["8"; layer] x [] y ["30"; "0.0"] b ["0"].

(** A closed triangle on a layer named like the group code of the flags. *)
Definition triangle_on_layer_70 : list string :=
  DxfSpec.polyline_section ["0"] (closed_polyline "70")
    (vertex "70" "0.0" "0.0" None)
    (vertex "70" "4.0" "0.0" None)
    (vertex "70" "0.0" "3.0" None) ["8"; "70"].

(** A closed triangle, with an explicit zero bulge on its second vertex. *)
Definition triangle : list string :=
  DxfSpec.polyline_section ["0"] (closed_polyline "0")
    (vertex "0" "0.0" "0.0" None)
    (vertex "0" "4.0" "0.0" (Some "0.0"))
    (vertex "0" "0.0" "3.0" None) ["8"; "0"].

End Samples.

(** ** Vocabulary for bounding boxes *)

Module BBoxSpec.

Import BBox.
Local Open Scope Q_scope.
Local Open Scope num_scope.

(** All points have one and the same dimension, 2 or 3. *)
Definition uniform (ps : list tuple) : Prop :=
  exists d, (d = 2 \/ d = 3)%nat /\ Forall (fun p => List.length p = d) ps.

(** Construction succeeds exactly on the non-empty uniform lists. *)
Definition init_checks_dimensions (ps : list tuple) : Prop :=
  succeeds (init (Points ps)) <-> ps <> [] /\ uniform ps.

(** What construction does accept: a first point of dimension 2 or 3 and no
    point with fewer coordinates than the first. *)
Definition accepted (ps : list tuple) : Prop :=
  match ps with
  | [] => False
  | p :: _ =>
      (List.length p = 2 \/ List.length p = 3)%nat /\
      Forall (fun q => (List.length p <= List.length q)%nat) ps
  end.

(** A box has a z range exactly when its dimension is 3, and its dimension
    is 2 otherwise. *)
Definition shaped (b : BBox) : Prop :=
  match minz b, maxz b with
  | Some _, Some _ => dim b = 3%nat
  | None, None => dim b = 2%nat
  | _, _ => False
  end.

(** The bounds are ordered, and a box has a z range exactly when its
    dimension is 3. *)
Definition ordered (b : BBox) : Prop :=
  minx b <= maxx b /\ miny b <= maxy b /\
  match minz b, maxz b with
  | Some z0, Some z1 => dim b = 3%nat /\ z0 <= z1
  | None, None => dim b = 2%nat
  | _, _ => False
  end.

(** The boxes a program can hold: built by [BBox(pnts)] and grown by
    [update]. *)
Inductive constructed : BBox -> Prop :=
| constructed_init (pnts : pnts_arg) (b : BBox) :
    init pnts = Ok b -> constructed b
| constructed_update (b b' : BBox) (pnts : pnts_arg) :
    constructed b -> update b pnts = Ok b' -> constructed b'.

(** Every coordinate of every point is a number: none is NaN. *)
Definition numbers (ps : list tuple) : Prop :=
  Forall (Forall (fun v => is_nan v = false)) ps.

(** The boxes built from, and grown by, points without NaN. *)
Inductive constructed_of_numbers : BBox -> Prop :=
| of_numbers_init (pnts : pnts_arg) (b : BBox) :
    numbers (as_list pnts) -> init pnts = Ok b -> constructed_of_numbers b
| of_numbers_update (b b' : BBox) (pnts : pnts_arg) :
    constructed_of_numbers b -> numbers (as_list pnts) ->
    update b pnts = Ok b' -> constructed_of_numbers b'.

Definition opt_le (a b : option num) : Prop :=
  match a, b with
  | Some x, Some y => x <= y
  | None, None => True
  | _, _ => False
  end.

(** No bound of [b'] lies inside the bounds of [b]. *)
Definition grown (b b' : BBox) : Prop :=
  minx b' <= minx b /\ maxx b <= maxx b' /\
  miny b' <= miny b /\ maxy b <= maxy b' /\
  opt_le (minz b') (minz b) /\ opt_le (maxz b) (maxz b').

(** The invariant as claimed of a box: ordered bounds, a width and a height
    that are not negative, and no bound moved inwards by growing. *)
Definition bounds_kept (b : BBox) : Prop :=
  ordered b /\ 0 <= width b /\ 0 <= height b /\
  forall pnts b', update b pnts = Ok b' -> ordered b' /\ grown b b'.

(** The four bounds in x and y are finite numbers. *)
Definition finite_bounds (b : BBox) : Prop :=
  finite (minx b) = true /\ finite (maxx b) = true /\
  finite (miny b) = true /\ finite (maxy b) = true.

(** The point lies within the bounds of the box. *)
Definition contains (b : BBox) (p : tuple) : bool :=
  match p, minz b, maxz b with
  | [x; y], _, _ =>
      between (minx b) x (maxx b) && between (miny b) y (maxy b)
  | [x; y; z], Some z0, Some z1 =>
      between (minx b) x (maxx b) && between (miny b) y (maxy b)
      && between z0 z z1
  | _, _, _ => false
  end.

(** The shape of the answer of [inside] as claimed: one boolean for any bare
    point of 2 or 3 numbers, one boolean per point for any list of points of
    the dimension of the box. *)
Definition answers_by_shape (b : BBox) : Prop :=
  (forall p, (List.length p = 2 \/ List.length p = 3)%nat ->
             exists v, inside b (Bare p) = Ok (One v)) /\
  (forall ps, Forall (fun p => List.length p = dim b) ps ->
              exists bs, inside b (Points ps) = Ok (Many bs) /\
                         List.length bs = List.length ps).

(** The three columns a successful construction has seen. *)
Definition columns_of (ps : list tuple) (b : BBox) : Prop :=
  exists xs ys,
    heads ps = Some xs /\ heads (map (@tl num) ps) = Some ys /\
    py_min xs = Ok (minx b) /\ py_max xs = Ok (maxx b) /\
    py_min ys = Ok (miny b) /\ py_max ys = Ok (maxy b) /\
    ((dim b = 2%nat /\ minz b = None /\ maxz b = None /\
      List.length (hd [] ps) = 2%nat) \/
     (exists zs z0 z1,
        heads (map (@tl num) (map (@tl num) ps)) = Some zs /\
        py_min zs = Ok z0 /\ py_max zs = Ok z1 /\
        dim b = 3%nat /\ minz b = Some z0 /\ maxz b = Some z1 /\
        List.length (hd [] ps) = 3%nat)).

(** The point has its coordinates within the bounds of the box. *)
Definition holds (b : BBox) (p : tuple) : Prop :=
  (exists x, nth_error p 0 = Some x /\ minx b <= x <= maxx b) /\
  (exists y, nth_error p 1 = Some y /\ miny b <= y <= maxy b) /\
  (forall z0 z1, minz b = Some z0 -> maxz b = Some z1 ->
                 exists z, nth_error p 2 = Some z /\ z0 <= z <= z1).

(** The first [d] coordinates of the point are numbers: none is NaN. *)
Definition clean (d : nat) (p : tuple) : Prop :=
  forall k v, (k < d)%nat -> nth_error p k = Some v -> is_nan v = false.

(** The square from (0, 0) to (1, 1). *)
Definition unit_square : BBox := mkBBox 0 1 0 1 None None 2.

End BBoxSpec.

(** ** Further vocabulary *)

Module DxfMore.

Import Dxf DxfSpec.

Section Generic.

Context {N : numbers}.

(** The scan that handles each marker. *)
Definition scans : list (string * (list string -> nat -> result (list entity))) :=
  [("LINE", get_line); ("ARC", get_arc);
   ("CIRCLE", get_circle); ("POLYLINE", get_polyline)].

(** How the scan finds the fields of the CIRCLE at the index of [e], and
    the arc it makes of them. *)
Definition circle_located (lines : list string) (e : entity) : Prop :=
  exists p8 p10 p20 p40 layer cx cy r,
    first_from lines "8" (index_of e) p8 /\
    getitem lines (S p8) = Ok layer /\
    first_from lines "10" (S p8) p10 /\
    float_at lines (S p10) = Ok cx /\
    first_from lines "20" (S p10) p20 /\
    float_at lines (S p20) = Ok cy /\
    first_from lines "40" (S p20) p40 /\
    float_at lines (S p40) = Ok r /\
    e = Arc cx cy r zero two_pi (index_of e) layer.

Definition has_index (i : nat) (e : entity) : bool := (index_of e =? i)%nat.

Definition is_straight (e : entity) : bool :=
  match e with
  | Line _ _ _ _ _ _ => true
  | Arc _ _ _ _ _ _ _ => false
  end.

(** The segments [bs] run along the points [pnts]: each one from a point to
    the next. *)
Fixpoint follows (pnts : list point) (bs : list entity) : Prop :=
  match bs, pnts with
  | [], _ => True
  | e :: bs', p :: ((q :: _) as pnts') =>
      start_point e = p /\ end_point e = q /\ follows pnts' bs'
  | _ :: _, _ => False
  end.

End Generic.

(** The section of [Samples.circle_then_line]. *)
Definition circle_then_line_section : list string :=
  ["0"; "CIRCLE"; "8"; "A"; "10"; "5.0"; "20"; "5.0"; "40"; "3.0";
   "0"; "LINE"; "8"; "B"; "10"; "0.0"; "20"; "0.0";
   "11"; "1.0"; "21"; "2.0"; "0"].

(** A file with a header section only. *)
Definition header_only : list string :=
  ["  0"; "SECTION"; "  2"; "HEADER"; "  0"; "ENDSEC"; "  0"; "EOF"].

(** A section that holds a text entity only. *)
Definition text_section : list string :=
  ["0"; "TEXT"; "8"; "A"; "10"; "1.0"; "20"; "2.0"; "1"; "hello"].

End DxfMore.

Module BBoxMore.

Import BBox BBoxSpec.
Local Open Scope Q_scope.
Local Open Scope num_scope.

(** The same bounds, as numbers. *)
Definition opt_eq (a b : option num) : Prop :=
  match a, b with
  | Some x, Some y => x == y
  | None, None => True
  | _, _ => False
  end.

Definition same_bounds (b b' : BBox) : Prop :=
  minx b == minx b' /\ maxx b == maxx b' /\
  miny b == miny b' /\ maxy b == maxy b' /\
  opt_eq (minz b) (minz b') /\ opt_eq (maxz b) (maxz b') /\
  dim b = dim b'.

(** The value [v] is coordinate [k] of one of the points. *)
Definition attained (ps : list tuple) (k : nat) (v : num) : Prop :=
  exists p, In p ps /\ nth_error p k = Some v.

(** Every bound of the box is a coordinate of one of the points. *)
Definition tight (b : BBox) (ps : list tuple) : Prop :=
  attained ps 0 (minx b) /\ attained ps 0 (maxx b) /\
  attained ps 1 (miny b) /\ attained ps 1 (maxy b) /\
  (forall z, minz b = Some z -> attained ps 2 z) /\
  (forall z, maxz b = Some z -> attained ps 2 z).

(** What [update] accepts on a box of dimension [d]. *)
Definition fits (d : nat) (ps : list tuple) : Prop :=
  match ps with
  | [] => False
  | p :: _ =>
      List.length p = d /\ Forall (fun q => (d <= List.length q)%nat) ps
  end.

(** The answer that says every point of [pnts] is inside. *)
Definition all_inside (pnts : pnts_arg) : answer :=
  match pnts with
  | Points ps => Many (map (fun _ => true) ps)
  | Bare _ => One true
  end.

(** The cube from (0, 0, 0) to (1, 1, 1). *)
Definition unit_cube : BBox := mkBBox 0 1 0 1 (Some 0) (Some 1) 3.

(** The two corners of a box, as [points] gives them. *)
Definition corner_lo (b : BBox) : tuple :=
  [minx b; miny b] ++ match minz b with Some z => [z] | None => [] end.

Definition corner_hi (b : BBox) : tuple :=
  [maxx b; maxy b] ++ match maxz b with Some z => [z] | None => [] end.

Definition corners (bbs : list BBox) : list tuple :=
  flat_map (fun b => [corner_lo b; corner_hi b]) bbs.

End BBoxMore.

(** * Properties *)

(** ** Results and loops *)

Lemma bind_Ok {A B : Type} (m : result A) (k : A -> result B) (b : B) :
  bind m k = Ok b -> exists a, m = Ok a /\ k a = Ok b.
Proof.
  destruct m as [a|e]; simpl; intros H; [eauto | discriminate].
Qed.

(** Splits a hypothesis [x <- m ;; k = Ok b] into its two halves. *)
Ltac bind_inv H :=
  let a := fresh "v" in
  let Ha := fresh "E" in
  apply bind_Ok in H; destruct H as (a & Ha & H).

Ltac binds_inv H :=
  repeat (match type of H with
          | bind _ _ = Ok _ => bind_inv H
          end; cbv beta zeta in H).

Lemma for_each_Forall {A B : Type} (P : B -> Prop)
      (f : A -> result (list B)) (l : list A) (r : list B) :
  (forall a bs, In a l -> f a = Ok bs -> Forall P bs) ->
  for_each f l = Ok r -> Forall P r.
Proof.
  revert r; induction l as [|a l IH]; simpl; intros r Hf H.
  - injection H as <-; constructor.
  - apply bind_Ok in H as (bs & Ea & H).
    apply bind_Ok in H as (rest & El & H). injection H as <-.
    apply Forall_app; split.
    + apply (Hf a); [now left | exact Ea].
    + apply IH; [|exact El]. intros a' bs' Hin. apply Hf. now right.
Qed.

(** ** Searching a list of lines *)

Lemma index_aux_Some (x : string) (l : list string) (pos p : nat) :
  index_aux x l pos = Some p ->
  pos <= p /\ nth_error l (p - pos) = Some x /\
  forall q, pos <= q < p -> nth_error l (q - pos) <> Some x.
Proof.
  revert pos; induction l as [|y l IH]; simpl; intros pos H; [discriminate|].
  destruct (String.eqb y x) eqn:E.
  - injection H as <-. apply String.eqb_eq in E; subst y.
    rewrite Nat.sub_diag; simpl. repeat split; auto. intros q Hq; lia.
  - apply IH in H as (Hle & Hnth & Hmin).
    apply String.eqb_neq in E.
    split; [lia|]. split.
    + replace (p - pos) with (S (p - S pos)) by lia. exact Hnth.
    + intros q Hq. destruct (Nat.eq_dec q pos) as [->|Hne].
      * rewrite Nat.sub_diag; simpl. congruence.
      * replace (q - pos) with (S (q - S pos)) by lia. simpl.
        apply Hmin; lia.
Qed.

Lemma index_aux_None (x : string) (l : list string) (pos : nat) :
  index_aux x l pos = None <-> ~ In x l.
Proof.
  revert pos; induction l as [|y l IH]; simpl; intros pos.
  - split; auto.
  - destruct (String.eqb y x) eqn:E.
    + apply String.eqb_eq in E. split; [discriminate|]. intros H; exfalso; auto.
    + apply String.eqb_neq in E. rewrite IH. tauto.
Qed.

Lemma nth_error_skipn {A : Type} (l : list A) (s n : nat) :
  nth_error (skipn s l) n = nth_error l (s + n).
Proof.
  revert l; induction s as [|s IH]; intros l; simpl; auto.
  destruct l; simpl; auto. now destruct n.
Qed.

(** A successful search returns the first position at or after [start]
    that holds [x]. *)
Lemma index_Ok (l : list string) (x : string) (start p : nat) :
  index l x start = Ok p ->
  start <= p /\ nth_error l p = Some x /\
  forall q, start <= q < p -> nth_error l q <> Some x.
Proof.
  unfold index. destruct (index_aux x (skipn start l) start) eqn:E;
    [|discriminate].
  intros H; injection H as <-.
  apply index_aux_Some in E as (Hle & Hnth & Hmin).
  rewrite nth_error_skipn in Hnth.
  replace (start + (n - start)) with n in Hnth by lia.
  repeat split; auto.
  intros q Hq. specialize (Hmin q Hq). rewrite nth_error_skipn in Hmin.
  now replace (start + (q - start)) with q in Hmin by lia.
Qed.

(** A search fails exactly when [x] does not occur from [start] on, and
    then with the error of [list.index]. *)
Lemma index_Raise (l : list string) (x : string) (start : nat) :
  ~ In x (skipn start l) <-> index l x start = Raise (NotInList x).
Proof.
  unfold index. rewrite <- (index_aux_None x (skipn start l) start).
  destruct (index_aux x (skipn start l) start); split; congruence.
Qed.

Lemma positions_aux_spec (x : string) (l : list string) (pos p : nat) :
  In p (positions_aux x l pos) <->
  pos <= p /\ nth_error l (p - pos) = Some x.
Proof.
  revert pos; induction l as [|y l IH]; simpl; intros pos.
  - split; [contradiction|]. intros (_ & H). destruct (p - pos); discriminate.
  - assert (Hrec : In p (positions_aux x l (S pos)) <->
                   pos < p /\ nth_error (y :: l) (p - pos) = Some x).
    { rewrite IH. split; intros (H1 & H2); split; try lia.
      - replace (p - pos) with (S (p - S pos)) by lia. exact H2.
      - replace (p - pos) with (S (p - S pos)) in H2 by lia. exact H2. }
    destruct (String.eqb y x) eqn:E.
    + apply String.eqb_eq in E; subst y. simpl. rewrite Hrec. split.
      * intros [<-|(H1 & H2)]; [rewrite Nat.sub_diag; auto|split; [lia|auto]].
      * intros (H1 & H2). destruct (Nat.eq_dec pos p); [auto|right].
        split; [lia|auto].
    + apply String.eqb_neq in E. rewrite Hrec. split.
      * intros (H1 & H2); split; [lia|auto].
      * intros (H1 & H2). split; auto.
        destruct (Nat.eq_dec pos p) as [->|]; [|lia].
        rewrite Nat.sub_diag in H2; simpl in H2. congruence.
Qed.

(** The positions scanned for a marker are exactly those that hold it. *)
Lemma positions_spec (x : string) (l : list string) (p : nat) :
  In p (positions x l) <-> nth_error l p = Some x.
Proof.
  unfold positions. rewrite positions_aux_spec, Nat.sub_0_r.
  split; [tauto | split; [lia | auto]].
Qed.

Lemma index_first (pre post : list string) (x : string) :
  ~ In x pre -> index (pre ++ x :: post) x 0 = Ok (List.length pre).
Proof.
  intros Hpre. unfold index; simpl.
  assert (H : forall pos, index_aux x (pre ++ x :: post) pos
                          = Some (pos + List.length pre)).
  { induction pre as [|y pre IH]; simpl; intros pos.
    - rewrite String.eqb_refl. f_equal; lia.
    - destruct (String.eqb y x) eqn:E.
      + apply String.eqb_eq in E. exfalso; apply Hpre; now left.
      + rewrite IH; [f_equal; lia|]. intros Hin; apply Hpre; now right. }
  now rewrite H.
Qed.

Lemma skipn_past (pre post : list string) (x : string) :
  skipn (S (List.length pre)) (pre ++ x :: post) = post.
Proof. induction pre; simpl; auto. Qed.

Import Dxf DxfSpec DxfMore.

(** ** The order of the decoded entities *)

Lemma insert_by_index_perm {N : numbers} (e : entity) (l : list entity) :
  Permutation (insert_by_index e l) (e :: l).
Proof.
  induction l as [|h t IH]; simpl; auto.
  destruct (index_of e <=? index_of h); auto.
  rewrite IH. apply perm_swap.
Qed.

Lemma sort_by_index_perm {N : numbers} (l : list entity) :
  Permutation (sort_by_index l) l.
Proof.
  induction l as [|e l IH]; simpl; auto.
  rewrite insert_by_index_perm. now constructor.
Qed.

Lemma insert_by_index_sorted {N : numbers} (e : entity) (l : list entity) :
  Sorted index_le l -> Sorted index_le (insert_by_index e l).
Proof.
  induction 1 as [|h t Hs IH Hh]; simpl.
  - repeat constructor.
  - destruct (index_of e <=? index_of h) eqn:E.
    + apply Nat.leb_le in E. repeat constructor; auto.
    + apply Nat.leb_gt in E. constructor; auto.
      destruct t as [|h' t']; simpl.
      * constructor. unfold index_le; lia.
      * inversion Hh; subst.
        destruct (index_of e <=? index_of h'); constructor;
          unfold index_le in *; lia.
Qed.

Lemma sort_by_index_sorted {N : numbers} (l : list entity) :
  StronglySorted index_le (sort_by_index l).
Proof.
  apply Sorted_StronglySorted.
  - intros a b c; unfold index_le; lia.
  - induction l as [|e l IH]; simpl; [constructor|].
    now apply insert_by_index_sorted.
Qed.

(** Every entity a scan emits for the marker at [i] carries the index [i]. *)
Lemma get_line_index {N : numbers} (lines : list string) (i : nat) (bs : list entity) :
  get_line lines i = Ok bs -> Forall (fun e => index_of e = i) bs.
Proof.
  unfold get_line; intros H. binds_inv H. injection H as <-.
  repeat constructor.
Qed.

Lemma get_arc_index {N : numbers} (lines : list string) (i : nat) (bs : list entity) :
  get_arc lines i = Ok bs -> Forall (fun e => index_of e = i) bs.
Proof.
  unfold get_arc; intros H. binds_inv H. injection H as <-.
  repeat constructor.
Qed.

Lemma get_circle_index {N : numbers} (lines : list string) (i : nat) (bs : list entity) :
  get_circle lines i = Ok bs -> Forall (fun e => index_of e = i) bs.
Proof.
  unfold get_circle; intros H. binds_inv H. injection H as <-.
  repeat constructor.
Qed.

Lemma get_segment_index {N : numbers} (i : nat) (layer : string) (s : point * point * number)
      (bs : list entity) :
  get_segment i layer s = Ok bs -> Forall (fun e => index_of e = i) bs.
Proof.
  destruct s as [[sp ep] a]; unfold get_segment.
  destruct (eqb a zero); intros H.
  - injection H as <-. repeat constructor.
  - bind_inv H. destruct v as [[[c r] a0] a1]. injection H as <-.
    repeat constructor.
Qed.

Lemma get_polyline_index {N : numbers} (lines : list string) (i : nat) (bs : list entity) :
  get_polyline lines i = Ok bs -> Forall (fun e => index_of e = i) bs.
Proof.
  unfold get_polyline; intros H.
  do 5 (bind_inv H; cbv beta zeta in H). bind_inv H.
  eapply for_each_Forall; [|exact H].
  intros s bs' _. apply get_segment_index.
Qed.

(** A scan for the marker [m] only emits entities whose index is a position
    of [m]. *)
Lemma scan_marker {N : numbers} (m : string) (lines : list string)
      (f : nat -> result (list entity)) (r : list entity) :
  (forall i bs, f i = Ok bs -> Forall (fun e => index_of e = i) bs) ->
  for_each f (positions m lines) = Ok r ->
  Forall (fun e => nth_error lines (index_of e) = Some m) r.
Proof.
  intros Hf. apply for_each_Forall.
  intros i bs Hin Hi. apply positions_spec in Hin.
  eapply Forall_impl; [|apply (Hf _ _ Hi)].
  simpl; intros e ->; exact Hin.
Qed.

Lemma decode_ordered {N : numbers} (lines : list string) (ents : list entity) :
  decode lines = Ok ents ->
  StronglySorted index_le ents /\ Forall (at_marker lines) ents.
Proof.
  unfold decode; intros H.
  apply bind_Ok in H as (e1 & H1 & H).
  apply bind_Ok in H as (e2 & H2 & H).
  apply bind_Ok in H as (e3 & H3 & H).
  apply bind_Ok in H as (e4 & H4 & H).
  injection H as <-. split; [apply sort_by_index_sorted|].
  eapply Permutation_Forall; [symmetry; apply sort_by_index_perm|].
  apply (scan_marker "LINE" _ _ _ (get_line_index lines)) in H1.
  apply (scan_marker "ARC" _ _ _ (get_arc_index lines)) in H2.
  apply (scan_marker "CIRCLE" _ _ _ (get_circle_index lines)) in H3.
  apply (scan_marker "POLYLINE" _ _ _ (get_polyline_index lines)) in H4.
  repeat (apply Forall_app; split);
    (eapply Forall_impl; [|eassumption]); intros e He;
    eexists; (split; [|exact He]); simpl; tauto.
Qed.

(** The four scans behind a successful decode. *)
Lemma decode_scans {N : numbers} (lines : list string) (ents : list entity) :
  decode lines = Ok ents ->
  exists e1 e2 e3 e4,
    _get_lines lines = Ok e1 /\ _get_arcs lines = Ok e2 /\
    _get_circles lines = Ok e3 /\ _get_polylines lines = Ok e4 /\
    ents = sort_by_index (e1 ++ e2 ++ e3 ++ e4).
Proof.
  unfold decode; intros H.
  apply bind_Ok in H as (e1 & H1 & H).
  apply bind_Ok in H as (e2 & H2 & H).
  apply bind_Ok in H as (e3 & H3 & H).
  apply bind_Ok in H as (e4 & H4 & H).
  injection H as <-. exists e1, e2, e3, e4. auto.
Qed.

(** ** Order within one record *)

Lemma filter_insert_by_index {N : numbers} (i : nat) (e : entity) (l : list entity) :
  filter (has_index i) (insert_by_index e l)
  = if has_index i e then e :: filter (has_index i) l
    else filter (has_index i) l.
Proof.
  induction l as [|h t IH]; simpl; [reflexivity|].
  destruct (index_of e <=? index_of h) eqn:E; simpl; [reflexivity|].
  rewrite IH. apply Nat.leb_gt in E. unfold has_index.
  destruct (Nat.eqb_spec (index_of e) i) as [Ei|Ni]; [|reflexivity].
  destruct (Nat.eqb_spec (index_of h) i) as [Eh|Nh]; [lia|reflexivity].
Qed.

(** The sort is stable: entities of one index keep their order. *)
Lemma filter_sort_by_index {N : numbers} (i : nat) (l : list entity) :
  filter (has_index i) (sort_by_index l) = filter (has_index i) l.
Proof.
  induction l as [|e l IH]; simpl; [reflexivity|].
  rewrite filter_insert_by_index, IH. reflexivity.
Qed.

Lemma positions_aux_NoDup (x : string) (l : list string) (pos : nat) :
  NoDup (positions_aux x l pos).
Proof.
  revert pos; induction l as [|y l IH]; simpl; intros pos; [constructor|].
  destruct (String.eqb y x); [|apply IH].
  constructor; [|apply IH].
  intros Hin. apply positions_aux_spec in Hin. lia.
Qed.

Lemma filter_none {N : numbers} (i : nat) (bs : list entity) :
  Forall (fun e => index_of e <> i) bs -> filter (has_index i) bs = [].
Proof.
  induction 1 as [|e bs He _ IH]; simpl; [reflexivity|].
  unfold has_index at 1. destruct (Nat.eqb_spec (index_of e) i); [contradiction|].
  exact IH.
Qed.

Lemma filter_all_index {N : numbers} (i : nat) (bs : list entity) :
  Forall (fun e => index_of e = i) bs -> filter (has_index i) bs = bs.
Proof.
  induction 1 as [|e bs He _ IH]; simpl; [reflexivity|].
  unfold has_index at 1. rewrite He, Nat.eqb_refl. now rewrite IH.
Qed.

(** What a scan contributes at the index [i]. *)
Lemma scan_filter {N : numbers} (f : nat -> result (list entity)) (l : list nat)
      (r : list entity) (i : nat) :
  NoDup l ->
  (forall j bs, f j = Ok bs -> Forall (fun e => index_of e = j) bs) ->
  for_each f l = Ok r ->
  (In i l -> exists bs, f i = Ok bs /\ filter (has_index i) r = bs) /\
  (~ In i l -> filter (has_index i) r = []).
Proof.
  intros Hnd Hf. revert r; induction Hnd as [|a l Ha Hnd IH]; simpl; intros r H.
  - injection H as <-. split; [contradiction|reflexivity].
  - apply bind_Ok in H as (bs & Ea & H).
    apply bind_Ok in H as (rest & El & H). injection H as <-.
    destruct (IH rest El) as [IH1 IH2]. rewrite filter_app.
    pose proof (Hf a bs Ea) as Hbs. split.
    + intros [->|Hin].
      * exists bs. split; [exact Ea|].
        rewrite (filter_all_index i bs Hbs), (IH2 Ha). apply app_nil_r.
      * destruct (IH1 Hin) as (bs' & Ei & Hfil). exists bs'.
        split; [exact Ei|]. rewrite Hfil.
        rewrite filter_none; [reflexivity|].
        eapply Forall_impl; [|exact Hbs]. simpl. intros e -> ->. contradiction.
    + intros Hn. rewrite IH2 by tauto.
      rewrite filter_none; [reflexivity|].
      eapply Forall_impl; [|exact Hbs]. simpl. intros e -> ->. tauto.
Qed.

Lemma scan_filter_marker {N : numbers} (m m' : string) (lines : list string)
      (scan : list string -> nat -> result (list entity))
      (r : list entity) (i : nat) :
  (forall j bs, scan lines j = Ok bs -> Forall (fun e => index_of e = j) bs) ->
  for_each (scan lines) (positions m' lines) = Ok r ->
  nth_error lines i = Some m ->
  (m' = m -> exists bs, scan lines i = Ok bs /\ filter (has_index i) r = bs) /\
  (m' <> m -> filter (has_index i) r = []).
Proof.
  intros Hf Hr Hi.
  destruct (scan_filter (scan lines) (positions m' lines) r i
              (positions_aux_NoDup m' lines 0) Hf Hr) as [H1 H2].
  split.
  - intros ->. apply H1. now apply positions_spec.
  - intros Hne. apply H2. intros Hin. apply positions_spec in Hin. congruence.
Qed.

(** What a successful decode holds at the index of a marker: the entities
    its record produced, in the order produced. *)
Lemma decode_record {N : numbers} (lines : list string) (ents : list entity)
        (m : string) (scan : list string -> nat -> result (list entity))
        (i : nat) :
  decode lines = Ok ents ->
  In (m, scan) scans ->
  nth_error lines i = Some m ->
  exists bs, scan lines i = Ok bs /\ filter (has_index i) ents = bs.
Proof.
  intros H Hm Hi.
  apply decode_scans in H as (e1 & e2 & e3 & e4 & H1 & H2 & H3 & H4 & ->).
  rewrite filter_sort_by_index, !filter_app.
  destruct (scan_filter_marker m "LINE" lines get_line e1 i
              (get_line_index lines) H1 Hi) as [L1 L2].
  destruct (scan_filter_marker m "ARC" lines get_arc e2 i
              (get_arc_index lines) H2 Hi) as [A1 A2].
  destruct (scan_filter_marker m "CIRCLE" lines get_circle e3 i
              (get_circle_index lines) H3 Hi) as [C1 C2].
  destruct (scan_filter_marker m "POLYLINE" lines get_polyline e4 i
              (get_polyline_index lines) H4 Hi) as [P1 P2].
  simpl in Hm.
  destruct Hm as [Hm|[Hm|[Hm|[Hm|[]]]]]; injection Hm as <- <-.
  - destruct (L1 eq_refl) as (bs & Hbs & ->). exists bs. split; [exact Hbs|].
    rewrite A2, C2, P2 by discriminate.
    simpl. now rewrite ?app_nil_r.
  - destruct (A1 eq_refl) as (bs & Hbs & ->). exists bs. split; [exact Hbs|].
    rewrite L2, C2, P2 by discriminate.
    simpl. now rewrite ?app_nil_r.
  - destruct (C1 eq_refl) as (bs & Hbs & ->). exists bs. split; [exact Hbs|].
    rewrite L2, A2, P2 by discriminate.
    simpl. now rewrite ?app_nil_r.
  - destruct (P1 eq_refl) as (bs & Hbs & ->). exists bs. split; [exact Hbs|].
    rewrite L2, A2, C2 by discriminate.
    simpl. now rewrite ?app_nil_r.
Qed.

(** C4: whenever the reader succeeds, the list it returns is sorted
    ascending by index (every entity's index is at most that of every later
    one); each index is a position, within the lines between [ENTITIES]
    and [ENDSEC], that holds one of the markers LINE, ARC, CIRCLE or
    POLYLINE; and at every such position the list holds exactly what the
    scan of that record produced, in the order produced.  So the list is
    the output of the records of all four kinds, in the order of their
    markers in the section. *)
Theorem reader_sorted_by_index {N : numbers} (file : list string)
        (ents : list entity) :
  reader file = Ok ents ->
  exists lines,
    entities_section (map strip file) = Ok lines /\
    StronglySorted index_le ents /\
    Forall (at_marker lines) ents /\
    forall m scan i,
      In (m, scan) scans -> nth_error lines i = Some m ->
      exists bs, scan lines i = Ok bs /\ filter (has_index i) ents = bs.
Proof.
  unfold reader; intros H.
  apply bind_Ok in H as (lines & Hs & H).
  exists lines. split; [exact Hs|].
  destruct (decode_ordered lines ents H) as [Hsorted Hmark].
  split; [exact Hsorted|]. split; [exact Hmark|].
  intros m scan i Hm Hi. now apply (decode_record lines ents m scan i).
Qed.

(** C7: when the stripped lines hold [ENTITIES] (first at the end of [pre])
    and no [ENDSEC] after it, the reader returns no entities: it raises the
    error of the search for [ENDSEC]. *)
Theorem reader_missing_ENDSEC {N : numbers} (file pre post : list string) :
  map strip file = pre ++ "ENTITIES" :: post ->
  ~ In "ENTITIES" pre ->
  ~ In "ENDSEC" post ->
  reader file = Raise (NotInList "ENDSEC").
Proof.
  intros Hdata Hpre Hpost. unfold reader, entities_section.
  rewrite Hdata, (index_first pre post "ENTITIES" Hpre). simpl bind.
  assert (Hn : ~ In "ENDSEC" (skipn (S (List.length pre))
                                    (pre ++ "ENTITIES" :: post)))
    by now rewrite skipn_past.
  apply index_Raise in Hn. now rewrite Hn.
Qed.

(** Evaluates the reader on given lines in real arithmetic, leaving the
    real numbers alone. *)
Ltac exact_fields :=
  try change (@float exact) with Exact.float;
  try change (@zero exact) with 0%R;
  try change (@two_pi exact) with Exact.two_pi;
  try change (@radians exact) with Exact.radians;
  try change (@plus exact) with Rplus;
  try change (@ltb exact) with Exact.Rltb;
  try change (@eqb exact) with Exact.Reqb;
  try change (@atan_times_4 exact) with (fun b : R => (atan b * 4)%R);
  try change (@arcdata exact) with Exact.arcdata;
  try change (@on_circle exact) with Exact.on_circle.

Ltac run :=
  repeat (progress
            (cbv - [IZR Rplus Rmult Rminus Rdiv Ropp Rinv PI atan sqrt sin cos
                    Rabs Rlt_dec Req_dec_T Exact.Rltb Exact.Reqb
                    Exact.two_pi Exact.radians Exact.arcdata Exact.on_circle
                    exact number float zero two_pi radians plus ltb eqb
                    atan_times_4 arcdata on_circle];
             exact_fields)).

Lemma reader_sorted_by_index_witness :
  exists lines,
    entities_section (map strip Samples.circle_then_line) = Ok lines /\
    StronglySorted index_le Samples.circle_then_line_entities /\
    Forall (at_marker lines) Samples.circle_then_line_entities /\
    forall m scan i,
      In (m, scan) scans -> nth_error lines i = Some m ->
      exists bs, scan lines i = Ok bs /\
                 filter (has_index i) Samples.circle_then_line_entities = bs.
Proof.
  apply (reader_sorted_by_index Samples.circle_then_line).
  run. reflexivity.
Defined.

Lemma reader_missing_ENDSEC_witness :
  reader Samples.unclosed_file = Raise (NotInList "ENDSEC").
Proof.
  apply (reader_missing_ENDSEC Samples.unclosed_file
           ["0"; "SECTION"; "2"] ["0"; "LINE"; "8"; "A"]).
  - reflexivity.
  - simpl. intros [H|[H|[H|[]]]]; discriminate H.
  - simpl. intros [H|[H|[H|[H|[]]]]]; discriminate H.
Defined.

(** ** LINE records *)

Lemma index_first_from (l : list string) (c : string) (start p : nat) :
  index l c start = Ok p -> first_from l c start p.
Proof. apply index_Ok. Qed.

Lemma nth_error_In_skipn (l : list string) (c : string) (i p : nat) :
  nth_error l p = Some c -> i <= p -> In c (skipn i l).
Proof.
  intros H Hle. apply (nth_error_In _ (p - i)).
  rewrite nth_error_skipn. now replace (i + (p - i)) with p by lia.
Qed.

Lemma not_Ok_fails {A : Type} (m : result A) :
  (forall a, m <> Ok a) -> fails m.
Proof.
  destruct m as [a|e]; intros H; [now destruct (H a) | now exists e].
Qed.

Lemma for_each_In {A B : Type} (f : A -> result (list B)) (l : list A)
      (r : list B) (a : A) :
  for_each f l = Ok r -> In a l ->
  exists bs, f a = Ok bs /\ incl bs r.
Proof.
  revert r; induction l as [|x l IH]; simpl; intros r H Hin; [contradiction|].
  apply bind_Ok in H as (bs & Ex & H).
  apply bind_Ok in H as (rest & El & H). injection H as <-.
  destruct Hin as [->|Hin].
  - exists bs. split; auto. now apply incl_appl.
  - destruct (IH rest El Hin) as (bs' & Ha & Hincl).
    exists bs'. split; auto. now apply incl_appr.
Qed.

(** What one successful LINE scan has located. *)
Lemma get_line_located {N : numbers} (lines : list string) (i : nat) (bs : list entity) :
  get_line lines i = Ok bs ->
  exists e, bs = [e] /\ line_located lines i e.
Proof.
  unfold get_line; intros H.
  apply bind_Ok in H as (p8 & E8 & H); cbv zeta in H.
  apply bind_Ok in H as (layer & El & H).
  apply bind_Ok in H as (p10 & E10 & H); cbv zeta in H.
  apply bind_Ok in H as (x1 & Ex1 & H).
  apply bind_Ok in H as (p20 & E20 & H); cbv zeta in H.
  apply bind_Ok in H as (y1 & Ey1 & H).
  apply bind_Ok in H as (p11 & E11 & H); cbv zeta in H.
  apply bind_Ok in H as (x2 & Ex2 & H).
  apply bind_Ok in H as (p21 & E21 & H); cbv zeta in H.
  apply bind_Ok in H as (y2 & Ey2 & H).
  injection H as <-. eexists; split; [reflexivity|].
  exists p8, p10, p20, p11, p21, layer, x1, y1, x2, y2.
  repeat match goal with |- _ /\ _ => split end;
    try assumption; try reflexivity; now apply index_first_from.
Qed.

Lemma line_located_codes {N : numbers} (lines : list string) (i : nat) (e : entity) (c : string) :
  line_located lines i e -> In c line_codes -> In c (skipn i lines).
Proof.
  intros (p8 & p10 & p20 & p11 & p21 & layer & x1 & y1 & x2 & y2 &
          (L8 & N8 & _) & _ & (L10 & N10 & _) & _ & (L20 & N20 & _) & _ &
          (L11 & N11 & _) & _ & (L21 & N21 & _) & _) Hc.
  simpl in Hc.
  destruct Hc as [<-|[<-|[<-|[<-|[<-|[]]]]]];
    eapply nth_error_In_skipn; try eassumption; lia.
Qed.

(** C2 (amended): for a LINE marker at [i], the scan fails, returning
    nothing, when one of the codes 8, 10, 20, 11, 21 occurs nowhere in the
    lines from the marker on; and when the scan succeeds, it has found the
    five codes one after the other, each as the first occurrence at or after
    the slot following the previous code, anywhere up to the end of the
    lines, and has emitted the LINE built from the values that follow
    them. *)
Theorem get_lines_missing_code {N : numbers} (lines : list string) (i : nat) :
  nth_error lines i = Some "LINE" ->
  (forall c, In c line_codes -> ~ In c (skipn i lines) ->
             fails (_get_lines lines)) /\
  (forall r, _get_lines lines = Ok r ->
             exists e, line_located lines i e /\ In e r).
Proof.
  intros Hi. apply positions_spec in Hi.
  assert (Hok : forall r, _get_lines lines = Ok r ->
                          exists e, line_located lines i e /\ In e r).
  { intros r Hr. destruct (for_each_In _ _ _ _ Hr Hi) as (bs & Hbs & Hincl).
    apply get_line_located in Hbs as (e & -> & He).
    exists e. split; auto. apply Hincl. now left. }
  split; [|exact Hok].
  intros c Hc Habs. apply not_Ok_fails. intros r Hr.
  destruct (Hok r Hr) as (e & He & _).
  apply Habs. eapply line_located_codes; eassumption.
Qed.

Lemma get_lines_missing_code_witness :
  (forall c, In c line_codes -> ~ In c (skipn 1 Samples.cut_line) ->
             fails (_get_lines Samples.cut_line)) /\
  (forall r, _get_lines Samples.cut_line = Ok r ->
             exists e, line_located Samples.cut_line 1 e /\ In e r).
Proof.
  apply (get_lines_missing_code Samples.cut_line 1). reflexivity.
Defined.

(** C2, as stated, fails: the first LINE record below has no code 21, and
    the scan succeeds, taking the value after the code 21 of the second
    record for both. *)
Lemma get_lines_takes_later_field :
  _get_lines Samples.short_line_then_line
  = Ok [Line (10 / 10) (20 / 10) (30 / 10) (85 / 10) 1 "A";
        Line (50 / 10) (60 / 10) (70 / 10) (85 / 10) 11 "B"]
  /\ ~ missing_field_detected Samples.short_line_then_line.
Proof.
  assert (E : _get_lines Samples.short_line_then_line
              = Ok [Line (10 / 10) (20 / 10) (30 / 10) (85 / 10) 1 "A";
                    Line (50 / 10) (60 / 10) (70 / 10) (85 / 10) 11 "B"])
    by (run; reflexivity).
  split; [exact E|].
  intros H. destruct (H 1 "21") as (e & He).
  - reflexivity.
  - simpl; tauto.
  - cbv. intuition discriminate.
  - rewrite E in He. discriminate He.
Qed.

(** ** Angles of ARC records *)

Lemma Reqb_refl (a : R) : Exact.Reqb a a = true.
Proof.
  unfold Exact.Reqb. destruct (Req_dec_T a a); [reflexivity|contradiction].
Qed.

Lemma Rltb_true (a b : R) : (a < b)%R -> Exact.Rltb a b = true.
Proof.
  unfold Exact.Rltb; intros H.
  destruct (Rlt_dec a b); [reflexivity|contradiction].
Qed.

Lemma Rltb_false (a b : R) : (b <= a)%R -> Exact.Rltb a b = false.
Proof.
  unfold Exact.Rltb; intros H. destruct (Rlt_dec a b); [lra|reflexivity].
Qed.

(** What one successful ARC scan has located. *)
Lemma get_arc_located {N : numbers} (lines : list string) (i : nat)
      (bs : list entity) :
  get_arc lines i = Ok bs ->
  exists e, bs = [e] /\ index_of e = i /\ arc_located lines e.
Proof.
  unfold get_arc; intros H.
  apply bind_Ok in H as (p8 & E8 & H); cbv zeta in H.
  apply bind_Ok in H as (layer & El & H).
  apply bind_Ok in H as (p10 & E10 & H); cbv zeta in H.
  apply bind_Ok in H as (cx & Ecx & H).
  apply bind_Ok in H as (p20 & E20 & H); cbv zeta in H.
  apply bind_Ok in H as (cy & Ecy & H).
  apply bind_Ok in H as (p40 & E40 & H); cbv zeta in H.
  apply bind_Ok in H as (r & Er & H).
  apply bind_Ok in H as (p50 & E50 & H); cbv zeta in H.
  apply bind_Ok in H as (d1 & Ed1 & H).
  apply bind_Ok in H as (p51 & E51 & H); cbv zeta in H.
  apply bind_Ok in H as (d2 & Ed2 & H).
  injection H as <-. eexists; split; [reflexivity|]. split; [reflexivity|].
  exists p8, p10, p20, p40, p50, p51, layer, cx, cy, r, d1, d2.
  simpl index_of.
  repeat match goal with |- _ /\ _ => split end;
    try assumption; try reflexivity; now apply index_first_from.
Qed.

Lemma sort_by_index_In {N : numbers} (l : list entity) (e : entity) :
  In e (sort_by_index l) <-> In e l.
Proof.
  split; apply Permutation_in;
    [apply sort_by_index_perm | symmetry; apply sort_by_index_perm].
Qed.

(** C5 (amended): in a successful decode, every entity that stems from an
    ARC marker is the arc of the fields the scan locates behind that
    marker, the codes 8, 10, 20, 40, 50 and 51 one after the other: its
    start angle is the conversion to radians of the degrees after code 50,
    and its end angle is the conversion of the degrees after code 51, with
    a full turn added when that is smaller than the start angle.  This
    holds for every arithmetic of the numbers; nothing is said of the span,
    which an arc from 0 to 360 degrees shows not to stay below a full
    turn. *)
Theorem decode_arc_angles {N : numbers} (lines : list string)
        (ents : list entity) (e : entity) :
  decode lines = Ok ents ->
  In e ents ->
  nth_error lines (index_of e) = Some "ARC" ->
  arc_located lines e.
Proof.
  unfold decode; intros H Hin Hmark.
  apply bind_Ok in H as (e1 & H1 & H).
  apply bind_Ok in H as (e2 & H2 & H).
  apply bind_Ok in H as (e3 & H3 & H).
  apply bind_Ok in H as (e4 & H4 & H).
  injection H as <-. apply (proj1 (sort_by_index_In _ _)) in Hin.
  pose proof (scan_marker "LINE" _ _ _ (get_line_index lines) H1) as M1.
  pose proof (scan_marker "CIRCLE" _ _ _ (get_circle_index lines) H3) as M3.
  pose proof (scan_marker "POLYLINE" _ _ _ (get_polyline_index lines) H4)
    as M4.
  rewrite Forall_forall in M1, M3, M4.
  repeat (apply in_app_or in Hin; destruct Hin as [Hin|Hin]).
  - apply M1 in Hin. congruence.
  - assert (Hall : Forall (arc_located lines) e2).
    { eapply for_each_Forall; [|exact H2]. intros i bs _ Hbs.
      apply get_arc_located in Hbs as (a & -> & _ & Ha). now constructor. }
    rewrite Forall_forall in Hall. now apply Hall.
  - apply M3 in Hin. congruence.
  - apply M4 in Hin. congruence.
Qed.

Lemma decode_arc_angles_witness :
  arc_located Samples.arc_through_zero
    (Arc (0 / 10) (0 / 10) (10 / 10)
         (Exact.radians (2700 / 10))
         (Exact.radians (900 / 10) + Exact.two_pi) 1 "A").
Proof.
  apply (decode_arc_angles Samples.arc_through_zero
           [Arc (N := exact) (0 / 10) (0 / 10) (10 / 10)
                (Exact.radians (2700 / 10))
                (Exact.radians (900 / 10) + Exact.two_pi) 1 "A"]).
  - run. rewrite Rltb_true; [reflexivity|].
    unfold Exact.radians. pose proof PI_RGT_0. lra.
  - left; reflexivity.
  - reflexivity.
Defined.

(** C5, as stated, fails: an arc from 0 to 360 degrees decodes to a span of
    a full turn, which is not below 2 pi. *)
Lemma get_arcs_full_sweep :
  _get_arcs Samples.arc_full_sweep
  = Ok [Arc (0 / 10) (0 / 10) (10 / 10)
            (Exact.radians (0 / 10)) (Exact.radians (3600 / 10)) 1 "A"]
  /\ ~ arcs_span_in_turn Samples.arc_full_sweep.
Proof.
  pose proof PI_RGT_0 as Hpi.
  assert (E : _get_arcs Samples.arc_full_sweep
              = Ok [Arc (0 / 10) (0 / 10) (10 / 10)
                        (Exact.radians (0 / 10))
                        (Exact.radians (3600 / 10)) 1 "A"]).
  { run. rewrite Rltb_false; [reflexivity|]. unfold Exact.radians. lra. }
  split; [exact E|].
  intros H. specialize (H _ E). inversion H as [|x l Hx _]; subst.
  unfold span_in_turn, span, Exact.radians, Exact.two_pi in Hx. lra.
Qed.

(** ** Vertices of POLYLINE records *)

Ltac run_straight := run; repeat (rewrite Reqb_refl; run).

Lemma filter_all {A : Type} (f : A -> bool) (l : list A) :
  Forall (fun a => f a = true) l -> filter f l = l.
Proof.
  induction 1 as [|a l Ha _ IH]; simpl; [reflexivity|].
  now rewrite Ha, IH.
Qed.

(** When every VERTEX marker of the lines sits between the POLYLINE at [i]
    and its SEQEND, the scan of that polyline is the one the specification
    describes. *)
Lemma get_polyline_agrees {N : numbers} (lines : list string) (i : nat) :
  (forall end_, index lines "SEQEND" i = Ok end_ ->
                Forall (fun v => i < v < end_) (positions "VERTEX" lines)) ->
  get_polyline lines i = get_polyline_spec lines i.
Proof.
  intros Hin. unfold get_polyline, get_polyline_spec.
  destruct (index lines "8" i) as [p8|]; simpl; [|reflexivity].
  destruct (getitem lines (S p8)) as [layer|]; simpl; [|reflexivity].
  match goal with
  | |- bind ?m _ = _ => destruct m as [closed|]; simpl; [|reflexivity]
  end.
  destruct (index lines "SEQEND" i) as [end_|] eqn:E; simpl; [|reflexivity].
  unfold vertices_between. rewrite filter_all; [reflexivity|].
  eapply Forall_impl; [|apply (Hin end_ eq_refl)].
  simpl; intros v [H1 H2].
  apply andb_true_intro; split; now apply Nat.ltb_lt.
Qed.

(** C1: on two polylines in one section the scan gives each of them the
    vertices of both: three segments per polyline, the middle one joining
    the last vertex of the first polyline to the first vertex of the second,
    where the scan bounded by POLYLINE and SEQEND gives one segment each. *)
Theorem get_polylines_mixes_vertices :
  _get_polylines Samples.two_polylines
  = Ok [Line (0 / 10) (0 / 10) (10 / 10) (0 / 10) 1 "A";
        Line (10 / 10) (0 / 10) (50 / 10) (50 / 10) 1 "A";
        Line (50 / 10) (50 / 10) (60 / 10) (50 / 10) 1 "A";
        Line (0 / 10) (0 / 10) (10 / 10) (0 / 10) 27 "B";
        Line (10 / 10) (0 / 10) (50 / 10) (50 / 10) 27 "B";
        Line (50 / 10) (50 / 10) (60 / 10) (50 / 10) 27 "B"]
  /\ _get_polylines_spec Samples.two_polylines
     = Ok [Line (0 / 10) (0 / 10) (10 / 10) (0 / 10) 1 "A";
           Line (50 / 10) (50 / 10) (60 / 10) (50 / 10) 27 "B"].
Proof.
  split; run_straight; reflexivity.
Qed.

(** ** Closed polylines *)

Lemma closed_of_bit0 (z : Z) :
  Z.testbit z 0 = true -> negb (Z.land z 1 =? 0)%Z = true.
Proof.
  rewrite Z.bit0_odd. intros H.
  change 1%Z with (Z.ones 1). rewrite Z.land_ones by lia.
  rewrite Zmod_odd, H. reflexivity.
Qed.

Lemma triangle_lines_closed {N : numbers} (p0 p1 p2 : point) (i : nat)
      (layer : string) :
  closed_chain (triangle_lines p0 p1 p2 i layer).
Proof.
  unfold closed_chain, triangle_lines; simpl.
  destruct p0, p1, p2; simpl. repeat split; reflexivity.
Qed.

Lemma Reqb_atan_0 : Exact.Reqb (atan 0 * 4) 0 = true.
Proof. rewrite atan_0, Rmult_0_l. apply Reqb_refl. Qed.

(** *** Reading the lines from a position on *)

Lemma index_aux_app (c : string) (B C : list string) (pos : nat) :
  ~ In c B ->
  index_aux c (B ++ c :: C) pos = Some (pos + List.length B).
Proof.
  revert pos; induction B as [|y B IH]; simpl; intros pos Hn.
  - rewrite String.eqb_refl. f_equal; lia.
  - destruct (String.eqb y c) eqn:E.
    + apply String.eqb_eq in E. exfalso; apply Hn; now left.
    + rewrite IH by (intros Hin; apply Hn; now right). f_equal; lia.
Qed.

(** A search that starts where the lines read [B ++ c :: C] stops behind
    [B], and leaves [C] to read. *)
Lemma index_cursor (l : list string) (c : string) (s : nat)
      (B C : list string) :
  skipn s l = B ++ c :: C -> ~ In c B ->
  index l c s = Ok (s + List.length B) /\
  skipn (S (s + List.length B)) l = C.
Proof.
  intros Hs Hn. split.
  - unfold index. now rewrite Hs, index_aux_app.
  - replace (S (s + List.length B)) with (S (List.length B) + s) by lia.
    rewrite <- skipn_skipn, Hs. apply skipn_past.
Qed.

Lemma getitem_cursor (l : list string) (s : nat) (x : string)
      (C : list string) :
  skipn s l = x :: C -> getitem l s = Ok x.
Proof.
  intros Hs. unfold getitem.
  replace s with (s + 0) by lia. rewrite <- nth_error_skipn, Hs. reflexivity.
Qed.

Lemma float_at_cursor {N : numbers} (l : list string) (s : nat) (x : string)
      (C : list string) :
  skipn s l = x :: C -> float_at l s = float x.
Proof.
  intros Hs. unfold float_at. now rewrite (getitem_cursor l s x C Hs).
Qed.

Lemma skipn_cursor (l : list string) (s : nat) (A B : list string) :
  skipn s l = A ++ B -> skipn (s + List.length A) l = B.
Proof.
  intros Hs. rewrite Nat.add_comm, <- skipn_skipn, Hs.
  rewrite skipn_app, Nat.sub_diag, skipn_all. reflexivity.
Qed.

(** A search that starts where the lines read [B ++ R], with no [c] in
    [B], finds nothing before [R]. *)
Lemma index_beyond (l : list string) (c : string) (s p : nat)
      (B R : list string) :
  skipn s l = B ++ R -> ~ In c B ->
  index l c s = Ok p -> s + List.length B <= p.
Proof.
  intros Hs Hn H. apply index_Ok in H as (Hle & Hnth & _).
  destruct (Nat.le_gt_cases (s + List.length B) p) as [|Hlt]; [assumption|].
  exfalso. apply Hn. apply (nth_error_In _ (p - s)).
  rewrite <- (nth_error_app1 B R) by lia.
  rewrite <- Hs, nth_error_skipn. now replace (s + (p - s)) with p by lia.
Qed.

Lemma positions_aux_app (c : string) (A B : list string) (pos : nat) :
  positions_aux c (A ++ B) pos
  = positions_aux c A pos ++ positions_aux c B (pos + List.length A).
Proof.
  revert pos; induction A as [|y A IH]; simpl; intros pos.
  - now rewrite Nat.add_0_r.
  - rewrite IH. replace (S pos + List.length A) with (pos + S (List.length A))
      by lia.
    now destruct (String.eqb y c).
Qed.

Lemma positions_aux_none (c : string) (A : list string) (pos : nat) :
  ~ In c A -> positions_aux c A pos = [].
Proof.
  revert pos; induction A as [|y A IH]; simpl; intros pos Hn; [reflexivity|].
  destruct (String.eqb y c) eqn:E.
  - apply String.eqb_eq in E. exfalso; apply Hn; now left.
  - apply IH. intros Hin; apply Hn; now right.
Qed.

(** *** Records that are laid out *)

Lemma quiet_In (l : list string) (c : string) :
  quiet l -> In c boundaries -> ~ In c l.
Proof.
  unfold quiet. rewrite forallb_forall. intros H Hc Hin.
  specialize (H c Hin). apply negb_true_iff in H.
  assert (E : is_boundary c = true).
  { unfold is_boundary. apply existsb_exists. exists c.
    split; [exact Hc|apply String.eqb_refl]. }
  congruence.
Qed.

Lemma free_of_quiet (c : string) (l : list string) : free_of c l -> quiet l.
Proof.
  unfold free_of, quiet. rewrite !forallb_forall. intros H s Hs.
  specialize (H s Hs). apply negb_true_iff, orb_false_elim in H as [H _].
  now rewrite H.
Qed.

Lemma free_of_In (c : string) (l : list string) : free_of c l -> ~ In c l.
Proof.
  unfold free_of. rewrite forallb_forall. intros H Hin.
  specialize (H c Hin). apply negb_true_iff, orb_false_elim in H as [_ H].
  now rewrite String.eqb_refl in H.
Qed.

Lemma quiet_app (A B : list string) : quiet (A ++ B) <-> quiet A /\ quiet B.
Proof. unfold quiet. rewrite forallb_app. apply andb_true_iff. Qed.

Lemma quiet_code (c : string) (A : list string) :
  is_boundary c = false -> quiet A -> quiet (c :: A).
Proof. unfold quiet. simpl. now intros -> ->. Qed.

(** Behind its marker, a record that is laid out holds no marker. *)
Lemma polyline_body_quiet (p : polyline_lines) :
  polyline_laid_out p -> quiet (tl (polyline_text p)).
Proof.
  intros (Q0 & Q1 & Q2). apply free_of_quiet in Q0, Q1.
  unfold polyline_text. cbn [tl].
  apply quiet_app. split; [exact Q0|].
  apply quiet_code; [reflexivity|].
  change (quiet ((p_layer p :: p_mid p) ++ "70" :: p_flags p :: p_rest p)).
  apply quiet_app. split; [exact Q1|].
  now apply quiet_code.
Qed.

Lemma vertex_body_quiet (v : vertex_lines) :
  vertex_laid_out v -> quiet (tl (vertex_text v)).
Proof.
  intros (Q0 & Q1 & Q2 & Qb). apply free_of_quiet in Q0, Q1, Q2.
  unfold vertex_text. cbn [tl].
  apply quiet_app. split; [exact Q0|].
  apply quiet_code; [reflexivity|].
  change (quiet ((v_x v :: v_mid v) ++ "20" :: v_y v :: v_tail v
                   ++ bulge_field (v_bulge v) ++ v_rest v)).
  apply quiet_app. split; [exact Q1|].
  apply quiet_code; [reflexivity|].
  change (quiet ((v_y v :: v_tail v) ++ v_rest v)) in Q2.
  apply quiet_app in Q2 as [Q2 Q3].
  change (quiet ((v_y v :: v_tail v) ++ bulge_field (v_bulge v) ++ v_rest v)).
  apply quiet_app. split; [exact Q2|].
  apply quiet_app. now split.
Qed.

Ltac right_nest H :=
  cbn [app] in H; repeat (rewrite <- app_assoc in H; cbn [app] in H).

Ltac lengths :=
  repeat (progress (rewrite ?length_app; cbn [List.length])).

(** The scan of one vertex record that is laid out: its point, and an
    angle that compares equal to zero when the bulge is absent or reads as
    zero. *)
Lemma get_vertex_text {N : numbers} (l : list string) (j k : nat)
      (v : vertex_lines) (R : list string) (pt : point) :
  skipn j l = vertex_text v ++ R ->
  k = j + List.length (vertex_text v) ->
  vertex_laid_out v ->
  straight_vertex v pt ->
  exists a, get_vertex l (j, k) = Ok [(pt, a)] /\ eqb a zero = true.
Proof.
  intros Hs Hk (F10 & F20 & F42 & _) [[Hx Hy] Hb].
  apply free_of_In in F10, F20, F42.
  destruct pt as [x y]; simpl in Hx, Hy.
  unfold vertex_text in Hs. unfold get_vertex. right_nest Hs.
  match type of Hs with
  | _ = "VERTEX" :: v_head v ++ "10" :: ?t =>
      change (skipn j l = ("VERTEX" :: v_head v) ++ "10" :: t) in Hs
  end.
  destruct (index_cursor l "10" j ("VERTEX" :: v_head v) _ Hs) as [E10 C10].
  { intros [H|H]; [discriminate H|contradiction]. }
  rewrite E10. cbn [bind].
  rewrite (float_at_cursor l _ _ _ C10), Hx. cbn [bind].
  match type of C10 with
  | ?c = v_x v :: v_mid v ++ "20" :: ?t =>
      change (c = (v_x v :: v_mid v) ++ "20" :: t) in C10
  end.
  destruct (index_cursor l "20" _ (v_x v :: v_mid v) _ C10 F20) as [E20 C20].
  rewrite E20. cbn [bind].
  rewrite (float_at_cursor l _ _ _ C20), Hy. cbn [bind].
  assert (Hlen : k = S (S (j + List.length ("VERTEX" :: v_head v))
                       + List.length (v_x v :: v_mid v))
                 + List.length (v_y v :: v_tail v
                                ++ bulge_field (v_bulge v) ++ v_rest v)).
  { rewrite Hk. unfold vertex_text. lengths. lia. }
  destruct (v_bulge v) as [s|] eqn:Eb; cbn [bulge_field app] in C20, Hlen.
  - destruct Hb as (w & Hw & Hz).
    match type of C20 with
    | ?c = v_y v :: v_tail v ++ ?t =>
        change (c = (v_y v :: v_tail v) ++ t) in C20
    end.
    destruct (index_cursor l "42" _ (v_y v :: v_tail v) _ C20) as [E42 C42].
    { intros Hin. apply F42. cbn [In] in Hin |- *.
      destruct Hin as [Hin|Hin]; [now left|right].
      apply in_or_app. now left. }
    rewrite E42. cbn [bind try_ValueError].
    match goal with
    | |- context [?a <? k] => replace (a <? k) with true
    end.
    2:{ symmetry. apply Nat.ltb_lt. rewrite Hlen. lengths. lia. }
    rewrite (float_at_cursor l _ _ _ C42), Hw. cbn [bind try_ValueError].
    eexists. split; [reflexivity|exact Hz].
  - rewrite app_assoc in C20.
    match type of C20 with
    | ?c = v_y v :: ?t ++ R => change (c = (v_y v :: t) ++ R) in C20
    end.
    exists zero. split; [|apply eqb_zero].
    destruct (index l "42" _) as [p42|e] eqn:E42.
    + pose proof (index_beyond l "42" _ p42 _ _ C20 F42 E42) as Hge.
      cbn [bind try_ValueError].
      replace (S p42 <? k) with false; [reflexivity|].
      symmetry. apply Nat.ltb_ge. rewrite Hlen. lengths.
      cbn [List.length] in Hge. rewrite length_app in Hge. lia.
    + assert (He : e = NotInList "42").
      { unfold index in E42.
        destruct (index_aux _ _ _); [discriminate E42|now injection E42]. }
      subst e. reflexivity.
Qed.

Section Triangle.

Context {N : numbers}.

Variables (pre post : list string) (p : polyline_lines)
          (v0 v1 v2 : vertex_lines).

Hypothesis Hlaid : section_laid_out pre p v0 v1 v2 post.

Let lines := polyline_section pre p v0 v1 v2 post.
Let i := List.length pre.
Let j0 := i + List.length (polyline_text p).
Let j1 := j0 + List.length (vertex_text v0).
Let j2 := j1 + List.length (vertex_text v1).
Let end_ := j2 + List.length (vertex_text v2).

Lemma cursor_polyline :
  skipn i lines
  = polyline_text p ++ vertex_text v0 ++ vertex_text v1 ++ vertex_text v2
                    ++ "SEQEND" :: post.
Proof.
  unfold lines, polyline_section, i.
  apply (skipn_cursor _ 0 pre). reflexivity.
Qed.

Lemma cursor_v0 :
  skipn j0 lines
  = vertex_text v0 ++ vertex_text v1 ++ vertex_text v2 ++ "SEQEND" :: post.
Proof. apply skipn_cursor, cursor_polyline. Qed.

Lemma cursor_v1 :
  skipn j1 lines = vertex_text v1 ++ vertex_text v2 ++ "SEQEND" :: post.
Proof. apply skipn_cursor, cursor_v0. Qed.

Lemma cursor_v2 :
  skipn j2 lines = vertex_text v2 ++ "SEQEND" :: post.
Proof. apply skipn_cursor, cursor_v1. Qed.

(** Where the section holds a marker, VERTEX or SEQEND. *)
Lemma positions_marker (c : string) :
  In c boundaries ->
  positions c lines
  = (if String.eqb "POLYLINE" c then [i] else [])
      ++ (if String.eqb "VERTEX" c then [j0; j1; j2] else [])
      ++ (if String.eqb "SEQEND" c then [end_] else []).
Proof.
  intros Hc. destruct Hlaid as (Hpre & Hp & Hv0 & Hv1 & Hv2 & Hpost).
  pose proof (quiet_In _ c (polyline_body_quiet p Hp) Hc) as Qp.
  pose proof (quiet_In _ c (vertex_body_quiet v0 Hv0) Hc) as Q0.
  pose proof (quiet_In _ c (vertex_body_quiet v1 Hv1) Hc) as Q1.
  pose proof (quiet_In _ c (vertex_body_quiet v2 Hv2) Hc) as Q2.
  unfold positions, lines, polyline_section.
  rewrite !positions_aux_app.
  rewrite (positions_aux_none c pre) by now apply quiet_In.
  unfold end_, j2, j1, j0, i.
  remember (polyline_text p) as P eqn:EP.
  remember (vertex_text v0) as V0 eqn:E0.
  remember (vertex_text v1) as V1 eqn:E1.
  remember (vertex_text v2) as V2 eqn:E2.
  assert (HP : P = "POLYLINE" :: tl P) by (subst P; reflexivity).
  assert (H0 : V0 = "VERTEX" :: tl V0) by (subst V0; reflexivity).
  assert (H1 : V1 = "VERTEX" :: tl V1) by (subst V1; reflexivity).
  assert (H2 : V2 = "VERTEX" :: tl V2) by (subst V2; reflexivity).
  rewrite HP at 1. rewrite H0 at 1. rewrite H1 at 1. rewrite H2 at 1.
  cbn [positions_aux app].
  rewrite !(positions_aux_none c (tl _)) by assumption.
  rewrite (positions_aux_none c post) by now apply quiet_In.
  rewrite !Nat.add_0_l, ?Nat.add_assoc.
  destruct (String.eqb "POLYLINE" c), (String.eqb "VERTEX" c),
    (String.eqb "SEQEND" c); reflexivity.
Qed.

Lemma records_hold_no_SEQEND :
  ~ In "SEQEND" (polyline_text p ++ vertex_text v0 ++ vertex_text v1
                                 ++ vertex_text v2).
Proof.
  destruct Hlaid as (_ & Hp & Hv0 & Hv1 & Hv2 & _).
  assert (Hc : In "SEQEND" boundaries) by (simpl; tauto).
  pose proof (quiet_In _ _ (polyline_body_quiet p Hp) Hc) as Qp.
  pose proof (quiet_In _ _ (vertex_body_quiet v0 Hv0) Hc) as Q0.
  pose proof (quiet_In _ _ (vertex_body_quiet v1 Hv1) Hc) as Q1.
  pose proof (quiet_In _ _ (vertex_body_quiet v2 Hv2) Hc) as Q2.
  intros Hin.
  repeat (apply in_app_or in Hin; destruct Hin as [Hin|Hin]);
    (destruct Hin as [Hin|Hin]; [discriminate Hin|]); contradiction.
Qed.

Variables (p0 p1 p2 : point).

Hypothesis Hclosed : closed_flag p.
Hypothesis Hs0 : straight_vertex v0 p0.
Hypothesis Hs1 : straight_vertex v1 p1.
Hypothesis Hs2 : straight_vertex v2 p2.

(** The scan of the POLYLINE record of the section. *)
Lemma get_polyline_triangle :
  get_polyline lines i = Ok (triangle_lines p0 p1 p2 i (p_layer p)).
Proof.
  pose proof cursor_polyline as C.
  pose proof cursor_v0 as C0.
  pose proof cursor_v1 as C1.
  pose proof cursor_v2 as C2.
  pose proof (positions_marker "VERTEX") as PV.
  change (String.eqb "POLYLINE" "VERTEX") with false in PV.
  change (String.eqb "VERTEX" "VERTEX") with true in PV.
  change (String.eqb "SEQEND" "VERTEX") with false in PV.
  cbn [app] in PV. specialize (PV ltac:(simpl; tauto)).
  assert (Eend : index lines "SEQEND" i = Ok end_).
  { assert (Cs : skipn i lines
                 = (polyline_text p ++ vertex_text v0 ++ vertex_text v1
                                    ++ vertex_text v2) ++ "SEQEND" :: post)
      by (rewrite C; now rewrite <- !app_assoc).
    destruct (index_cursor lines "SEQEND" i _ _ Cs records_hold_no_SEQEND)
      as [E _].
    rewrite E. f_equal. unfold end_, j2, j1, j0. lengths. lia. }
  destruct Hlaid as (_ & (F8 & F70 & _) & Hv0 & Hv1 & Hv2 & _).
  apply free_of_In in F8, F70.
  destruct Hclosed as (z & Hflags & Hbit).
  unfold get_polyline.
  unfold polyline_text in C. right_nest C.
  match type of C with
  | ?c = "POLYLINE" :: p_head p ++ "8" :: ?t =>
      change (c = ("POLYLINE" :: p_head p) ++ "8" :: t) in C
  end.
  destruct (index_cursor lines "8" i ("POLYLINE" :: p_head p) _ C) as [E8 C8].
  { intros [H|H]; [discriminate H|contradiction]. }
  rewrite E8. cbn [bind].
  rewrite (getitem_cursor lines _ _ _ C8). cbn [bind].
  match type of C8 with
  | ?c = p_layer p :: p_mid p ++ "70" :: ?t =>
      change (c = (p_layer p :: p_mid p) ++ "70" :: t) in C8
  end.
  destruct (index_cursor lines "70" _ (p_layer p :: p_mid p) _ C8 F70)
    as [E70 C70].
  rewrite E70. cbn [bind].
  rewrite (getitem_cursor lines _ _ _ C70). cbn [bind].
  rewrite Hflags. cbn [bind]. rewrite closed_of_bit0 by exact Hbit.
  cbn [try_ValueError bind].
  rewrite Eend. cbn [bind].
  rewrite PV. cbn [tl app combine for_each].
  destruct (get_vertex_text lines j0 j1 v0 _ p0 C0 eq_refl Hv0 Hs0)
    as (a0 & G0 & Z0).
  destruct (get_vertex_text lines j1 j2 v1 _ p1 C1 eq_refl Hv1 Hs1)
    as (a1 & G1 & Z1).
  destruct (get_vertex_text lines j2 end_ v2 _ p2 C2 eq_refl Hv2 Hs2)
    as (a2 & G2 & Z2).
  rewrite G0, G1, G2.
  cbn [bind app map fst snd getitem nth_error zip3 tl for_each get_segment].
  rewrite Z0, Z1, Z2. reflexivity.
Qed.

(** The decoding of the section. *)
Lemma decode_polyline_section :
  decode lines = Ok (triangle_lines p0 p1 p2 i (p_layer p)).
Proof.
  unfold decode, _get_lines, _get_arcs, _get_circles, _get_polylines.
  rewrite !positions_marker by (simpl; tauto).
  cbn [String.eqb Ascii.eqb Bool.eqb app for_each bind].
  rewrite get_polyline_triangle.
  unfold triangle_lines, sort_by_index.
  cbn [bind app fold_right insert_by_index index_of].
  repeat (rewrite Nat.leb_refl; cbn [insert_by_index index_of]).
  reflexivity.
Qed.

End Triangle.




(** ** Bounding boxes *)

Module BBoxFacts.

Import BBox BBoxSpec.
Local Open Scope Q_scope.
Local Open Scope num_scope.

(** *** The order on numbers *)

Lemma num_le_numbers (a b : num) :
  a <= b -> is_nan a = false /\ is_nan b = false.
Proof. destruct a, b; simpl; intros H; try discriminate H; auto. Qed.

Lemma num_le_refl (a : num) : is_nan a = false -> a <= a.
Proof.
  destruct a; simpl; intros H; try discriminate H; auto.
  apply Qle_bool_iff, Qle_refl.
Qed.

Lemma num_le_trans (a b c : num) : a <= b -> b <= c -> a <= c.
Proof.
  destruct a, b, c; simpl; intros H1 H2;
    try discriminate H1; try discriminate H2; auto.
  apply Qle_bool_iff in H1, H2. apply Qle_bool_iff.
  eapply Qle_trans; eauto.
Qed.

Lemma num_le_antisym (a b : num) : a <= b -> b <= a -> a == b.
Proof.
  destruct a, b; simpl; intros H1 H2;
    try discriminate H1; try discriminate H2; auto.
  apply Qle_bool_iff in H1, H2. apply Qeq_bool_iff.
  now apply Qle_antisym.
Qed.

Lemma num_ltb_le (a b : num) : num_ltb a b = true -> a <= b.
Proof.
  destruct a, b; simpl; intros H; try discriminate H; auto.
  apply Qle_bool_iff. apply negb_true_iff in H.
  destruct (Qlt_le_dec q q0) as [Hlt|Hle]; [now apply Qlt_le_weak|].
  apply Qle_bool_iff in Hle. congruence.
Qed.

Lemma num_ltb_ge (a b : num) :
  is_nan a = false -> is_nan b = false -> num_ltb a b = false -> b <= a.
Proof.
  destruct a, b; simpl; intros Ha Hb H;
    try discriminate Ha; try discriminate Hb; try discriminate H; auto.
  now apply negb_false_iff in H.
Qed.

Lemma between_true (a v b : num) : a <= v <= b -> between a v b = true.
Proof. intros [H1 H2]. unfold between. now rewrite H1, H2. Qed.

Lemma between_bounds (a v b : num) : between a v b = true -> a <= v <= b.
Proof. unfold between. intros H. now apply andb_prop in H. Qed.

Lemma num_sub_nonneg (a b : num) :
  a <= b -> finite a = true -> finite b = true -> 0 <= num_sub b a.
Proof.
  destruct a, b; simpl; intros H Fa Fb;
    try discriminate Fa; try discriminate Fb.
  apply Qle_bool_iff in H. apply Qle_bool_iff. Lqa.lra.
Qed.

(** *** Columns of a list of points *)

Lemma heads_Forall2 (ps : list tuple) (hs : list num) :
  heads ps = Some hs ->
  Forall2 (fun p h => nth_error p 0 = Some h) ps hs.
Proof.
  revert hs; induction ps as [|p ps IH]; simpl; intros hs H.
  - injection H as <-. constructor.
  - destruct p as [|x p]; [discriminate|].
    destruct (heads ps) as [hs'|]; [|discriminate].
    injection H as <-. constructor; auto.
Qed.

Lemma heads_Some (ps : list tuple) :
  (exists hs, heads ps = Some hs) <->
  Forall (fun p => (1 <= List.length p)%nat) ps.
Proof.
  induction ps as [|p ps IH]; simpl.
  - split; [constructor | eauto].
  - destruct p as [|x p]; simpl.
    + split; [intros (hs & H); discriminate|].
      intros H; inversion H; subst; simpl in *; lia.
    + destruct (heads ps) as [hs'|].
      * split; [|eauto]. intros _. constructor; [simpl; lia|].
        apply IH; eauto.
      * split; [intros (hs & H); discriminate|].
        intros H; inversion H; subst.
        destruct (proj2 IH) as (hs & Hhs); [assumption|discriminate].
Qed.

Lemma heads_length (ps : list tuple) (hs : list num) :
  heads ps = Some hs -> List.length hs = List.length ps.
Proof.
  intros H. apply heads_Forall2 in H. symmetry.
  induction H; simpl; auto.
Qed.

Lemma heads_tl_Forall2 (k : nat) (ps : list tuple) (hs : list num) :
  Forall2 (fun p h => nth_error p k = Some h) (map (@tl num) ps) hs ->
  Forall2 (fun p h => nth_error p (S k) = Some h) ps hs.
Proof.
  revert hs; induction ps as [|p ps IH]; simpl; intros hs H;
    inversion H; subst; constructor; auto.
  destruct p; simpl in *; auto. destruct k; discriminate.
Qed.

(** A column of points whose first coordinates are numbers holds numbers
    only. *)
Lemma column_numbers (d k : nat) (ps : list tuple) (c : list num) :
  (k < d)%nat ->
  Forall (clean d) ps ->
  Forall2 (fun p h => nth_error p k = Some h) ps c ->
  Forall (fun v => is_nan v = false) c.
Proof.
  intros Hk Hc H. induction H as [|p h ps c Hp _ IH]; constructor.
  - inversion Hc as [|? ? Hcp _]; subst. exact (Hcp k h Hk Hp).
  - apply IH. now inversion Hc.
Qed.

Lemma numbers_clean (d : nat) (ps : list tuple) :
  numbers ps -> Forall (clean d) ps.
Proof.
  unfold numbers. intros H. eapply Forall_impl; [|exact H].
  intros p Hp k v _ Hv. rewrite Forall_forall in Hp.
  apply Hp. eapply nth_error_In; eauto.
Qed.

(** *** Minimum and maximum *)

Lemma min_step_le (m v : num) :
  is_nan m = false -> is_nan v = false ->
  min_step m v <= m /\ min_step m v <= v.
Proof.
  intros Hm Hv. unfold min_step. destruct (num_ltb v m) eqn:E.
  - split; [now apply num_ltb_le | now apply num_le_refl].
  - split; [now apply num_le_refl | now apply num_ltb_ge].
Qed.

Lemma max_step_le (m v : num) :
  is_nan m = false -> is_nan v = false ->
  m <= max_step m v /\ v <= max_step m v.
Proof.
  intros Hm Hv. unfold max_step. destruct (num_ltb m v) eqn:E.
  - split; [now apply num_ltb_le | now apply num_le_refl].
  - split; [now apply num_le_refl | now apply num_ltb_ge].
Qed.

Lemma fold_min_le (l : list num) (x : num) :
  is_nan x = false -> Forall (fun v => is_nan v = false) l ->
  fold_left min_step l x <= x /\
  Forall (fun v => fold_left min_step l x <= v) l.
Proof.
  revert x; induction l as [|a l IH]; simpl; intros x Hx Hl.
  - split; [now apply num_le_refl | constructor].
  - inversion Hl as [|? ? Ha Hl']; subst.
    destruct (min_step_le x a Hx Ha) as [M1 M2].
    destruct (IH (min_step x a)) as [H1 H2];
      [now apply (num_le_numbers _ _ M1) | exact Hl' |].
    split; [|constructor; auto]; eapply num_le_trans; eauto.
Qed.

Lemma fold_max_le (l : list num) (x : num) :
  is_nan x = false -> Forall (fun v => is_nan v = false) l ->
  x <= fold_left max_step l x /\
  Forall (fun v => v <= fold_left max_step l x) l.
Proof.
  revert x; induction l as [|a l IH]; simpl; intros x Hx Hl.
  - split; [now apply num_le_refl | constructor].
  - inversion Hl as [|? ? Ha Hl']; subst.
    destruct (max_step_le x a Hx Ha) as [M1 M2].
    destruct (IH (max_step x a)) as [H1 H2];
      [now apply (num_le_numbers _ _ M1) | exact Hl' |].
    split; [|constructor; auto]; eapply num_le_trans; eauto.
Qed.

Lemma py_min_le (l : list num) (m : num) :
  Forall (fun v => is_nan v = false) l ->
  py_min l = Ok m -> Forall (fun v => m <= v) l.
Proof.
  destruct l as [|x l]; simpl; intros Hl H; [discriminate|].
  injection H as <-. inversion Hl; subst.
  destruct (fold_min_le l x); auto.
Qed.

Lemma py_max_le (l : list num) (m : num) :
  Forall (fun v => is_nan v = false) l ->
  py_max l = Ok m -> Forall (fun v => v <= m) l.
Proof.
  destruct l as [|x l]; simpl; intros Hl H; [discriminate|].
  injection H as <-. inversion Hl; subst.
  destruct (fold_max_le l x); auto.
Qed.

Lemma py_min_succeeds (l : list num) :
  l <> [] -> exists m, py_min l = Ok m.
Proof. destruct l; [congruence | simpl; eauto]. Qed.

Lemma py_max_succeeds (l : list num) :
  l <> [] -> exists m, py_max l = Ok m.
Proof. destruct l; [congruence | simpl; eauto]. Qed.

(** The extremes of a column of numbers bound every coordinate in it, and
    are ordered. *)
Lemma column_bounds (k : nat) (ps : list tuple) (c : list num) (lo hi : num) :
  Forall2 (fun p h => nth_error p k = Some h) ps c ->
  Forall (fun v => is_nan v = false) c ->
  py_min c = Ok lo -> py_max c = Ok hi ->
  lo <= hi /\
  Forall (fun p => exists v, nth_error p k = Some v /\ lo <= v <= hi) ps.
Proof.
  intros Hc Hn Hlo Hhi. split.
  - destruct c as [|v c]; [discriminate Hlo|].
    apply py_min_le in Hlo; [|exact Hn]. apply py_max_le in Hhi; [|exact Hn].
    inversion Hlo; inversion Hhi; subst. eapply num_le_trans; eauto.
  - apply py_min_le in Hlo; [|exact Hn]. apply py_max_le in Hhi; [|exact Hn].
    clear Hn. revert Hlo Hhi. induction Hc; intros Hlo Hhi; constructor;
      inversion Hlo; inversion Hhi; subst; eauto.
Qed.

(** *** Construction *)

Lemma heads_tl_Some (ps : list tuple) :
  (exists xs ys, heads ps = Some xs /\ heads (map (@tl num) ps) = Some ys) <->
  Forall (fun q => (2 <= List.length q)%nat) ps.
Proof.
  split.
  - intros (xs & ys & Hx & Hy).
    assert (H1 : Forall (fun p => (1 <= List.length p)%nat) ps)
      by (apply heads_Some; eauto).
    assert (H2 : Forall (fun p => (1 <= List.length p)%nat) (map (@tl num) ps))
      by (apply heads_Some; eauto).
    rewrite Forall_map in H2. rewrite Forall_forall in *.
    intros q Hq. specialize (H1 q Hq). specialize (H2 q Hq).
    destruct q as [|a [|b q]]; simpl in *; lia.
  - intros H.
    destruct (proj2 (heads_Some ps)) as (xs & Hx).
    { eapply Forall_impl; [|exact H]. simpl; intros; lia. }
    destruct (proj2 (heads_Some (map (@tl num) ps))) as (ys & Hy).
    { rewrite Forall_map. eapply Forall_impl; [|exact H].
      intros [|a q]; simpl; lia. }
    eauto.
Qed.

Lemma heads_tl_tl_Some (ps : list tuple) :
  (exists xs ys zs, heads ps = Some xs /\ heads (map (@tl num) ps) = Some ys /\
                    heads (map (@tl num) (map (@tl num) ps)) = Some zs) <->
  Forall (fun q => (3 <= List.length q)%nat) ps.
Proof.
  split.
  - intros (xs & ys & zs & Hx & Hy & Hz).
    assert (H1 : Forall (fun q => (2 <= List.length q)%nat) ps)
      by (apply heads_tl_Some; eauto).
    assert (H2 : Forall (fun q => (2 <= List.length q)%nat) (map (@tl num) ps))
      by (apply heads_tl_Some; eauto).
    rewrite Forall_map in H2. rewrite Forall_forall in *.
    intros q Hq. specialize (H1 q Hq). specialize (H2 q Hq).
    destruct q as [|a q]; simpl in *; lia.
  - intros H.
    destruct (proj2 (heads_tl_Some ps)) as (xs & ys & Hx & Hy).
    { eapply Forall_impl; [|exact H]. simpl; intros; lia. }
    destruct (proj2 (heads_tl_Some (map (@tl num) ps))) as (ys' & zs & Hy' & Hz).
    { rewrite Forall_map. eapply Forall_impl; [|exact H].
      intros [|a q]; simpl; lia. }
    exists xs, ys, zs. auto.
Qed.

Lemma init_list_columns (ps : list tuple) (b : BBox) :
  init_list ps = Ok b -> columns_of ps b.
Proof.
  unfold init_list, zip_star.
  destruct (Nat.eqb_spec (List.length (hd [] ps)) 2) as [E2|N2].
  - rewrite E2; simpl.
    destruct (heads ps) as [xs|] eqn:Hxs; [|discriminate].
    destruct (heads (map (@tl num) ps)) as [ys|] eqn:Hys; [|discriminate].
    intros H.
    apply bind_Ok in H as (x0 & Hx0 & H). apply bind_Ok in H as (x1 & Hx1 & H).
    apply bind_Ok in H as (y0 & Hy0 & H). apply bind_Ok in H as (y1 & Hy1 & H).
    injection H as <-. exists xs, ys; simpl.
    repeat (split; [assumption || reflexivity|]). left. auto.
  - destruct (Nat.eqb_spec (List.length (hd [] ps)) 3) as [E3|N3];
      [|discriminate].
    rewrite E3; simpl.
    destruct (heads ps) as [xs|] eqn:Hxs; [|discriminate].
    destruct (heads (map (@tl num) ps)) as [ys|] eqn:Hys; [|discriminate].
    destruct (heads (map (@tl num) (map (@tl num) ps))) as [zs|] eqn:Hzs;
      [|discriminate].
    intros H.
    apply bind_Ok in H as (x0 & Hx0 & H). apply bind_Ok in H as (x1 & Hx1 & H).
    apply bind_Ok in H as (y0 & Hy0 & H). apply bind_Ok in H as (y1 & Hy1 & H).
    apply bind_Ok in H as (z0 & Hz0 & H). apply bind_Ok in H as (z1 & Hz1 & H).
    injection H as <-. exists xs, ys; simpl.
    repeat (split; [assumption || reflexivity|]). right.
    exists zs, z0, z1. auto 10.
Qed.

(** The box built from [ps] has the dimension of the first point, and a z
    range exactly when that is 3. *)
Lemma init_list_shaped (ps : list tuple) (b : BBox) :
  init_list ps = Ok b -> shaped b /\ dim b = List.length (hd [] ps).
Proof.
  intros H. apply init_list_columns in H
    as (xs & ys & _ & _ & _ & _ & _ & _ & Hz).
  unfold shaped.
  destruct Hz as [(Hd & -> & -> & Hl)
                 |(zs & z0 & z1 & _ & _ & _ & Hd & -> & -> & Hl)];
    split; congruence.
Qed.

(** The box built from points whose coordinates are numbers is ordered and
    holds every one of the points. *)
Lemma init_list_bounds (ps : list tuple) (b : BBox) :
  init_list ps = Ok b ->
  Forall (clean (List.length (hd [] ps))) ps ->
  ordered b /\ dim b = List.length (hd [] ps) /\ Forall (holds b) ps.
Proof.
  intros H Hn. apply init_list_columns in H
    as (xs & ys & Hx & Hy & Hx0 & Hx1 & Hy0 & Hy1 & Hz).
  apply heads_Forall2 in Hx.
  apply heads_Forall2, heads_tl_Forall2 in Hy.
  assert (Hl : (2 <= List.length (hd [] ps))%nat)
    by (destruct Hz as [(_ & _ & _ & ->)
                       |(? & ? & ? & _ & _ & _ & _ & _ & _ & ->)]; lia).
  assert (Nx : Forall (fun v => is_nan v = false) xs)
    by (eapply (column_numbers _ 0); [|exact Hn|exact Hx]; lia).
  assert (Ny : Forall (fun v => is_nan v = false) ys)
    by (eapply (column_numbers _ 1); [|exact Hn|exact Hy]; lia).
  destruct (column_bounds 0 ps xs _ _ Hx Nx Hx0 Hx1) as [Ox Cx].
  destruct (column_bounds 1 ps ys _ _ Hy Ny Hy0 Hy1) as [Oy Cy].
  rewrite Forall_forall in Cx, Cy.
  destruct Hz as [(Hd & Hz0 & Hz1 & Hlen)
                 |(zs & z0 & z1 & Hzs & Hm0 & Hm1 & Hd & Hz0 & Hz1 & Hlen)].
  - split; [|split; [congruence|]].
    + unfold ordered. rewrite Hz0, Hz1. auto.
    + apply Forall_forall. intros p Hp. unfold holds.
      split; [auto|]. split; [auto|]. intros z0 z1 E. congruence.
  - apply heads_Forall2, heads_tl_Forall2, heads_tl_Forall2 in Hzs.
    assert (Nz : Forall (fun v => is_nan v = false) zs)
      by (eapply (column_numbers _ 2); [|exact Hn|exact Hzs]; lia).
    destruct (column_bounds 2 ps zs _ _ Hzs Nz Hm0 Hm1) as [Oz Cz].
    rewrite Forall_forall in Cz. split; [|split; [congruence|]].
    + unfold ordered. rewrite Hz0, Hz1. auto.
    + apply Forall_forall. intros p Hp. unfold holds.
      split; [auto|]. split; [auto|]. intros a0 a1 E0 E1.
      rewrite Hz0 in E0; rewrite Hz1 in E1.
      injection E0 as <-; injection E1 as <-. auto.
Qed.

Lemma init_is_init_list (pnts : pnts_arg) (b : BBox) :
  init pnts = Ok b -> init_list (as_list pnts) = Ok b.
Proof.
  unfold init. destruct (is_empty pnts); [discriminate|].
  intros H. now apply bind_Ok in H as (n & _ & H).
Qed.

Lemma init_ordered (pnts : pnts_arg) (b : BBox) :
  numbers (as_list pnts) -> init pnts = Ok b -> ordered b.
Proof.
  intros Hn H. apply init_is_init_list in H.
  now apply init_list_bounds in H; [|apply numbers_clean].
Qed.

Lemma ordered_shaped (b : BBox) : ordered b -> shaped b.
Proof.
  intros (_ & _ & Oz). unfold shaped.
  destruct (minz b), (maxz b); tauto.
Qed.

(** *** Growing *)

Lemma first_len_hd (pnts : pnts_arg) (n : nat) :
  first_len pnts = Ok n ->
  exists p rest, as_list pnts = p :: rest /\ List.length p = n.
Proof.
  destruct pnts as [ps|p]; simpl.
  - destruct ps as [|p rest]; [discriminate|]. simpl.
    intros H; injection H as <-. eauto.
  - destruct ((List.length p =? 2)%nat || (List.length p =? 3)%nat).
    + intros H; injection H as <-. eauto.
    + destruct (getitem p 0); discriminate.
Qed.

(** What a successful [update] hands to the constructor. *)
Lemma update_is_init_list (b b' : BBox) (pnts : pnts_arg) :
  shaped b -> update b pnts = Ok b' ->
  first_len pnts = Ok (dim b) /\
  init_list (as_list pnts
             ++ [[minx b; miny b] ++ match minz b with
                                     | Some z => [z]
                                     | None => []
                                     end;
                 [maxx b; maxy b] ++ match maxz b with
                                     | Some z => [z]
                                     | None => []
                                     end]) = Ok b'.
Proof.
  intros Hs H. unfold update in H.
  apply bind_Ok in H as (n & Hn & H).
  destruct (Nat.eqb_spec (dim b) n) as [En|]; [simpl in H|discriminate].
  subst n. split; [exact Hn|]. unfold shaped in Hs.
  destruct (minz b) as [z0|], (maxz b) as [z1|]; try contradiction.
  - rewrite Hs in H. exact H.
  - rewrite Hs in H. exact H.
Qed.

Lemma ordered_corners_clean (b : BBox) (d : nat) :
  ordered b ->
  Forall (clean d)
         [[minx b; miny b] ++ match minz b with
                              | Some z => [z]
                              | None => []
                              end;
          [maxx b; maxy b] ++ match maxz b with
                              | Some z => [z]
                              | None => []
                              end].
Proof.
  intros (Ox & Oy & Oz).
  apply num_le_numbers in Ox as [X0 X1]. apply num_le_numbers in Oy as [Y0 Y1].
  destruct (minz b) as [z0|], (maxz b) as [z1|]; try contradiction.
  - destruct Oz as [_ Oz]. apply num_le_numbers in Oz as [Z0 Z1].
    repeat constructor; intros [|[|[|[|k]]]] v _ Hv; simpl in Hv;
      try discriminate Hv; injection Hv as <-; assumption.
  - repeat constructor; intros [|[|[|k]]] v _ Hv; simpl in Hv;
      try discriminate Hv; injection Hv as <-; assumption.
Qed.

Lemma update_grown (b b' : BBox) (pnts : pnts_arg) :
  ordered b -> Forall (clean (dim b)) (as_list pnts) ->
  update b pnts = Ok b' -> ordered b' /\ grown b b'.
Proof.
  intros Ho Hc H.
  destruct (update_is_init_list b b' pnts (ordered_shaped b Ho) H) as [Hn Hi].
  apply first_len_hd in Hn as (p & rest & Hp & Hlen).
  apply init_list_bounds in Hi as (Hord & Hdim & Hall).
  2:{ match goal with
      | |- Forall (clean (List.length (hd [] ?l))) _ =>
          replace (List.length (hd [] l)) with (dim b)
            by (rewrite Hp; cbn [app hd]; congruence)
      end.
      apply Forall_app. split; [exact Hc|].
      now apply ordered_corners_clean. }
  split; [exact Hord|].
  rewrite Hp in Hdim. cbn [app hd] in Hdim.
  rewrite Forall_forall in Hall.
  destruct Ho as (Ox & Oy & Oz).
  destruct (minz b) as [z0|] eqn:E0, (maxz b) as [z1|] eqn:E1;
    try contradiction.
  - destruct (Hall [minx b; miny b; z0])
      as ((x & Hx & Bx) & (y & Hy & By) & Hz);
      [apply in_or_app; right; simpl; auto|].
    destruct (Hall [maxx b; maxy b; z1])
      as ((x' & Hx' & Bx') & (y' & Hy' & By') & Hz');
      [apply in_or_app; right; simpl; auto|].
    simpl in Hx, Hy, Hx', Hy'.
    injection Hx as <-; injection Hy as <-;
      injection Hx' as <-; injection Hy' as <-.
    destruct Hord as (_ & _ & Hzz). unfold grown. rewrite E0, E1.
    destruct (minz b') as [z0'|], (maxz b') as [z1'|]; try contradiction;
      [|destruct Oz; lia].
    destruct (Hz z0' z1' eq_refl eq_refl) as (z & Ez & Bz).
    destruct (Hz' z0' z1' eq_refl eq_refl) as (z' & Ez' & Bz').
    simpl in Ez, Ez'. injection Ez as <-; injection Ez' as <-.
    simpl. intuition.
  - destruct (Hall [minx b; miny b])
      as ((x & Hx & Bx) & (y & Hy & By) & _);
      [apply in_or_app; right; simpl; auto|].
    destruct (Hall [maxx b; maxy b])
      as ((x' & Hx' & Bx') & (y' & Hy' & By') & _);
      [apply in_or_app; right; simpl; auto|].
    simpl in Hx, Hy, Hx', Hy'.
    injection Hx as <-; injection Hy as <-;
      injection Hx' as <-; injection Hy' as <-.
    destruct Hord as (_ & _ & Hzz). unfold grown. rewrite E0, E1.
    destruct (minz b') as [z0'|], (maxz b') as [z1'|]; try contradiction;
      [destruct Hzz; lia|].
    simpl. intuition.
Qed.

Lemma constructed_is_shaped (b : BBox) : constructed b -> shaped b.
Proof.
  induction 1 as [pnts b H|b b' pnts _ IH H].
  - now apply init_is_init_list, init_list_shaped in H.
  - now apply (update_is_init_list b b' pnts IH), proj2, init_list_shaped in H.
Qed.

Lemma of_numbers_is_ordered (b : BBox) :
  constructed_of_numbers b -> ordered b.
Proof.
  induction 1 as [pnts b Hn H|b b' pnts _ IH Hn H].
  - now apply (init_ordered pnts).
  - apply (update_grown b b' pnts IH); [|exact H]. now apply numbers_clean.
Qed.

(** C10 (amended): every box that was built from points whose coordinates
    are numbers, none of them NaN, and then grown any number of times by
    such points has ordered bounds in x and y, and in z when its dimension
    is 3; its width and height are not negative when its bounds are finite;
    and growing it once more by such points moves no bound inwards. *)
Theorem constructed_bounds (b : BBox) :
  constructed_of_numbers b ->
  ordered b /\
  (finite_bounds b -> 0 <= width b /\ 0 <= height b) /\
  forall pnts b',
    numbers (as_list pnts) -> update b pnts = Ok b' ->
    ordered b' /\ grown b b'.
Proof.
  intros Hc. pose proof (of_numbers_is_ordered b Hc) as Ho.
  split; [exact Ho|]. split.
  - destruct Ho as (Ox & Oy & _). intros (F0 & F1 & F2 & F3).
    unfold width, height. split; now apply num_sub_nonneg.
  - intros pnts b' Hn H. apply (update_grown b b' pnts Ho); [|exact H].
    now apply numbers_clean.
Qed.

Lemma constructed_bounds_witness :
  ordered unit_square /\
  (finite_bounds unit_square ->
   0 <= width unit_square /\ 0 <= height unit_square) /\
  forall pnts b',
    numbers (as_list pnts) -> update unit_square pnts = Ok b' ->
    ordered b' /\ grown unit_square b'.
Proof.
  apply (constructed_bounds unit_square).
  apply (of_numbers_init (Points [[0; 0]; [1; 1]])).
  - repeat constructor.
  - reflexivity.
Defined.

(** C10, as stated, fails on a NaN and on an infinity: a box built from a
    point that starts with NaN has NaN for both x bounds, which are then
    not ordered; growing the unit square by such a point replaces its x
    bounds by NaN; and the box of one point at infinity has NaN for its
    width. *)
Lemma bounds_lost_to_nan :
  init (Points [[NaN; 0]; [1; 0]]) = Ok (mkBBox NaN NaN 0 0 None None 2)
  /\ ~ ordered (mkBBox NaN NaN 0 0 None None 2)
  /\ init (Points [[0; 0]; [1; 1]]) = Ok unit_square
  /\ update unit_square (Points [[NaN; Fin (1 # 2)]])
     = Ok (mkBBox NaN NaN 0 1 None None 2)
  /\ ~ grown unit_square (mkBBox NaN NaN 0 1 None None 2)
  /\ init (Points [[PInf; 0]]) = Ok (mkBBox PInf PInf 0 0 None None 2)
  /\ width (mkBBox PInf PInf 0 0 None None 2) = NaN
  /\ ~ (forall b, constructed b -> bounds_kept b).
Proof.
  split; [reflexivity|]. split; [intros [H _]; discriminate H|].
  split; [reflexivity|]. split; [reflexivity|].
  split; [intros [H _]; discriminate H|].
  split; [reflexivity|]. split; [reflexivity|].
  intros H.
  destruct (H (mkBBox NaN NaN 0 0 None None 2)) as [[Hbad _] _];
    [|discriminate Hbad].
  apply (constructed_init (Points [[NaN; 0]; [1; 0]])). reflexivity.
Qed.

(** *** What the constructor accepts *)

Lemma heads_not_nil (ps : list tuple) (hs : list num) :
  ps <> [] -> heads ps = Some hs -> hs <> [].
Proof.
  intros Hne H. apply heads_length in H.
  destruct ps; [congruence|]. destruct hs; [discriminate|congruence].
Qed.

(** C8 (amended): construction from a list of points succeeds exactly when
    the list is not empty, its first point has 2 or 3 coordinates, and no
    point has fewer coordinates than the first; so it fails on the empty
    list and succeeds on every non-empty list of points of one dimension,
    2 or 3, and it also accepts longer points after the first, whose extra
    coordinates are not looked at. *)
Theorem init_succeeds_iff (ps : list tuple) :
  succeeds (init (Points ps)) <-> accepted ps.
Proof.
  destruct ps as [|p rest].
  - simpl. split; [intros (b & H); discriminate | contradiction].
  - unfold init, accepted. simpl is_empty. cbv iota.
    change (first_len (Points (p :: rest))) with (@Ok nat (List.length p)).
    simpl bind. simpl as_list.
    assert (Hne : p :: rest <> []) by discriminate.
    revert Hne. generalize (eq_refl : hd [] (p :: rest) = p).
    generalize (p :: rest) as ps. intros ps Hhd Hne.
    unfold init_list, zip_star. rewrite Hhd.
    destruct (Nat.eqb_spec (List.length p) 2) as [E2|N2];
      [|destruct (Nat.eqb_spec (List.length p) 3) as [E3|N3]].
    + rewrite E2. simpl zip_star_aux. split.
      * intros (b & Hb). split; [now left|]. apply heads_tl_Some.
        destruct (heads ps) as [xs|]; [|discriminate].
        destruct (heads (map (@tl num) ps)) as [ys|]; [|discriminate]. eauto.
      * intros [_ Hall]. apply heads_tl_Some in Hall as (xs & ys & Hx & Hy).
        rewrite Hx, Hy.
        destruct (py_min_succeeds xs) as (x0 & ->);
          [eapply heads_not_nil; eauto|].
        destruct (py_max_succeeds xs) as (x1 & ->);
          [eapply heads_not_nil; eauto|].
        assert (Hys : ys <> []).
        { apply heads_length in Hy. rewrite length_map in Hy.
          destruct ps; [congruence|]. destruct ys; [discriminate|congruence]. }
        destruct (py_min_succeeds ys Hys) as (y0 & ->).
        destruct (py_max_succeeds ys Hys) as (y1 & ->).
        simpl. eexists; reflexivity.
    + rewrite E3. simpl zip_star_aux. split.
      * intros (b & Hb). split; [now right|]. apply heads_tl_tl_Some.
        destruct (heads ps) as [xs|]; [|discriminate].
        destruct (heads (map (@tl num) ps)) as [ys|]; [|discriminate].
        destruct (heads (map (@tl num) (map (@tl num) ps))) as [zs|];
          [|discriminate].
        eauto 6.
      * intros [_ Hall].
        apply heads_tl_tl_Some in Hall as (xs & ys & zs & Hx & Hy & Hz).
        rewrite Hx, Hy, Hz.
        assert (Hxs : xs <> []) by (eapply heads_not_nil; eauto).
        assert (Hys : ys <> []).
        { apply heads_length in Hy. rewrite length_map in Hy.
          destruct ps; [congruence|]. destruct ys; [discriminate|congruence]. }
        assert (Hzs : zs <> []).
        { apply heads_length in Hz. rewrite !length_map in Hz.
          destruct ps; [congruence|]. destruct zs; [discriminate|congruence]. }
        destruct (py_min_succeeds xs Hxs) as (x0 & ->).
        destruct (py_max_succeeds xs Hxs) as (x1 & ->).
        destruct (py_min_succeeds ys Hys) as (y0 & ->).
        destruct (py_max_succeeds ys Hys) as (y1 & ->).
        destruct (py_min_succeeds zs Hzs) as (z0 & ->).
        destruct (py_max_succeeds zs Hzs) as (z1 & ->).
        simpl. eexists; reflexivity.
    + split; [intros (b & H); discriminate|]. intros [[H|H] _]; contradiction.
Qed.

(** C8, as stated, fails: a 2-tuple followed by a 3-tuple is accepted, and
    gives the box of the first two coordinates. *)
Lemma init_accepts_mixed :
  init (Points [[1; 2]; [3; 4; 5]]) = Ok (mkBBox 1 3 2 4 None None 2)
  /\ ~ init_checks_dimensions [[1; 2]; [3; 4; 5]].
Proof.
  split; [reflexivity|].
  intros [H _]. destruct H as [_ (d & _ & Hall)].
  - eexists; reflexivity.
  - inversion Hall as [|? ? H1 Hrest]; subst.
    inversion Hrest as [|? ? H2 _]; subst. discriminate H2.
Qed.

(** *** Containment *)

Lemma for_each_map {A B : Type} (f : A -> result B) (g : A -> B)
      (l : list A) :
  (forall a, In a l -> f a = Ok (g a)) ->
  for_each (fun a => b <- f a ;; Ok [b]) l = Ok (map g l).
Proof.
  induction l as [|a l IH]; simpl; intros H; [reflexivity|].
  rewrite (H a) by now left. simpl.
  rewrite IH by (intros; apply H; now right). reflexivity.
Qed.

Lemma inside2_contains (b : BBox) (p : tuple) :
  List.length p = 2%nat -> inside2 b p = Ok (contains b p).
Proof.
  destruct p as [|x [|y [|z p]]]; try discriminate. intros _.
  unfold inside2, contains; simpl.
  destruct (between (minx b) x (maxx b)); reflexivity.
Qed.

Lemma inside3_contains (b : BBox) (p : tuple) (z0 z1 : num) :
  minz b = Some z0 -> maxz b = Some z1 ->
  List.length p = 3%nat -> inside3 b p = Ok (contains b p).
Proof.
  intros E0 E1.
  destruct p as [|x [|y [|z [|w p]]]]; try discriminate. intros _.
  unfold inside3, contains; simpl. rewrite E0, E1.
  destruct (between (minx b) x (maxx b)); [|reflexivity].
  destruct (between (miny b) y (maxy b)); reflexivity.
Qed.

Lemma inside_each (b : BBox) (ps : list tuple) :
  shaped b ->
  Forall (fun p => List.length p = dim b) ps ->
  for_each (fun p => v <- (if (dim b =? 2)%nat then inside2 b p
                           else inside3 b p) ;; Ok [v]) ps
  = Ok (map (contains b) ps).
Proof.
  unfold shaped. intros Oz Hall. apply for_each_map.
  rewrite Forall_forall in Hall. intros p Hp. specialize (Hall p Hp).
  destruct (minz b) as [z0|] eqn:E0, (maxz b) as [z1|] eqn:E1;
    try contradiction.
  - rewrite Oz in *. simpl.
    now apply (inside3_contains b p z0 z1).
  - rewrite Oz in *. simpl. now apply inside2_contains.
Qed.

(** C9 (amended): on a constructed box, the containment test called with a
    single bare point of the dimension of the box returns one boolean, that
    of the point; called with a non-empty list of points of the dimension
    of the box it returns the list of their booleans, in input order; a
    bare point of 2 or 3 numbers that has not the dimension of the box
    raises the dimension error; and the empty list raises an index
    error. *)
Theorem inside_answer (b : BBox) :
  constructed b ->
  (forall p, List.length p = dim b ->
             inside b (Bare p) = Ok (One (contains b p))) /\
  (forall ps, ps <> [] -> Forall (fun p => List.length p = dim b) ps ->
              inside b (Points ps) = Ok (Many (map (contains b) ps))) /\
  (forall p, (List.length p = 2 \/ List.length p = 3)%nat ->
             List.length p <> dim b ->
             inside b (Bare p)
             = Raise (ValueErrorMsg "dimension of pnts[0] not conform bbox.")) /\
  inside b (Points []) = Raise IndexError.
Proof.
  intros Hc. apply constructed_is_shaped in Hc.
  assert (Hdim : dim b = 2%nat \/ dim b = 3%nat).
  { unfold shaped in Hc.
    destruct (minz b), (maxz b); try contradiction; tauto. }
  split; [|split; [|split]].
  - intros p Hp. unfold inside.
    assert (Hs : is_single (Bare p) = true).
    { simpl. rewrite Hp. destruct Hdim as [-> | ->]; reflexivity. }
    unfold first_len. rewrite Hs. cbn [bind].
    rewrite Hp, Nat.eqb_refl. cbn [negb].
    rewrite (inside_each b (as_list (Bare p)) Hc)
      by (simpl; constructor; auto).
    reflexivity.
  - intros ps Hne Hall. unfold inside.
    destruct ps as [|p rest]; [congruence|].
    cbn [is_single first_len getitem nth_error bind as_list].
    inversion Hall as [|? ? Hp _]; subst.
    rewrite Hp, Nat.eqb_refl. cbn [negb].
    rewrite (inside_each b _ Hc Hall). reflexivity.
  - intros p Hlen Hne. unfold inside.
    assert (Hs : is_single (Bare p) = true).
    { simpl. destruct Hlen as [-> | ->]; reflexivity. }
    unfold first_len. rewrite Hs. cbn [bind].
    destruct (Nat.eqb_spec (List.length p) (dim b)) as [E|_];
      [contradiction|reflexivity].
  - reflexivity.
Qed.

Lemma inside_answer_witness :
  (forall p, List.length p = dim unit_square ->
             inside unit_square (Bare p)
             = Ok (One (contains unit_square p))) /\
  (forall ps, ps <> [] ->
              Forall (fun p => List.length p = dim unit_square) ps ->
              inside unit_square (Points ps)
              = Ok (Many (map (contains unit_square) ps))) /\
  (forall p, (List.length p = 2 \/ List.length p = 3)%nat ->
             List.length p <> dim unit_square ->
             inside unit_square (Bare p)
             = Raise (ValueErrorMsg "dimension of pnts[0] not conform bbox.")) /\
  inside unit_square (Points []) = Raise IndexError.
Proof.
  apply (inside_answer unit_square).
  apply (constructed_init (Points [[0; 0]; [1; 1]])). reflexivity.
Defined.

(** C9, as stated, fails: on the unit square, a bare point of three numbers
    raises the dimension error instead of giving a boolean, and the empty
    list of points raises an index error instead of giving the empty
    list. *)
Lemma inside_refuses :
  init (Points [[0; 0]; [1; 1]]) = Ok unit_square
  /\ inside unit_square (Bare [0; 0; 0])
     = Raise (ValueErrorMsg "dimension of pnts[0] not conform bbox.")
  /\ inside unit_square (Points []) = Raise IndexError
  /\ ~ answers_by_shape unit_square.
Proof.
  repeat split.
  intros [H _]. destruct (H [0; 0; 0]) as (v & Hv); [now right|].
  discriminate Hv.
Qed.

End BBoxFacts.

(** * Further properties of the reader *)

Module DxfFacts.

Import Dxf DxfSpec DxfMore.

(** ** Failure of one record *)

Lemma for_each_fails {A B : Type} (f : A -> result (list B)) (l : list A)
      (a : A) :
  In a l -> fails (f a) -> fails (for_each f l).
Proof.
  induction l as [|x l IH]; simpl; intros Hin Ha; [contradiction|].
  destruct (f x) as [bs|e] eqn:Ex; simpl; [|now exists e].
  destruct Hin as [->|Hin].
  - destruct Ha as (e & He); congruence.
  - destruct (IH Hin Ha) as (e & ->). now exists e.
Qed.

Lemma fails_bind {A B : Type} (m : result A) (k : A -> result B) :
  fails m \/ (exists a, m = Ok a /\ fails (k a)) -> fails (bind m k).
Proof.
  intros [(e & ->)|(a & -> & H)]; simpl; [now exists e | exact H].
Qed.

(** X4: decoding is all or nothing.  When the record of one marker, of
    whatever kind and wherever in the section, cannot be scanned, the whole
    decode fails and returns no entity. *)
Theorem decode_fails_with_record {N : numbers} (lines : list string) (m : string)
        (scan : list string -> nat -> result (list entity)) (i : nat) :
  In (m, scan) scans ->
  nth_error lines i = Some m ->
  fails (scan lines i) ->
  fails (decode lines).
Proof.
  intros Hm Hi Hf. apply positions_spec in Hi. unfold decode.
  simpl in Hm.
  destruct (_get_lines lines) as [e1|e] eqn:E1; simpl;
    [|now exists e].
  destruct (_get_arcs lines) as [e2|e] eqn:E2; simpl;
    [|now exists e].
  destruct (_get_circles lines) as [e3|e] eqn:E3; simpl;
    [|now exists e].
  destruct (_get_polylines lines) as [e4|e] eqn:E4; simpl;
    [|now exists e].
  exfalso.
  destruct Hm as [Hm|[Hm|[Hm|[Hm|[]]]]]; injection Hm as <- <-.
  - destruct (for_each_fails _ _ _ Hi Hf) as (e & He).
    unfold _get_lines in E1. congruence.
  - destruct (for_each_fails _ _ _ Hi Hf) as (e & He).
    unfold _get_arcs in E2. congruence.
  - destruct (for_each_fails _ _ _ Hi Hf) as (e & He).
    unfold _get_circles in E3. congruence.
  - destruct (for_each_fails _ _ _ Hi Hf) as (e & He).
    unfold _get_polylines in E4. congruence.
Qed.

Lemma decode_fails_with_record_witness :
  fails (decode Samples.cut_line).
Proof.
  apply (decode_fails_with_record Samples.cut_line "LINE" get_line 1).
  - left; reflexivity.
  - reflexivity.
  - eexists. reflexivity.
Defined.

(** ** The section *)

(** X2: a file with no line [ENTITIES] is refused with the error of the
    search for that word. *)
Theorem reader_missing_ENTITIES {N : numbers} (file : list string) :
  ~ In "ENTITIES" (map strip file) ->
  reader file = Raise (NotInList "ENTITIES").
Proof.
  intros H. unfold reader, entities_section.
  assert (E : index (map strip file) "ENTITIES" 0 = Raise (NotInList "ENTITIES"))
    by now apply index_Raise.
  now rewrite E.
Qed.

Lemma reader_missing_ENTITIES_witness :
  reader header_only = Raise (NotInList "ENTITIES").
Proof.
  apply (reader_missing_ENTITIES header_only).
  simpl. intros H.
  repeat (destruct H as [H|H]; [discriminate H|]). exact H.
Defined.

Lemma index_fails (l : list string) (x : string) (start : nat) (e : exn) :
  index l x start = Raise e -> ~ In x (skipn start l).
Proof.
  unfold index.
  destruct (index_aux x (skipn start l) start) eqn:E; [discriminate|].
  intros _. now apply index_aux_None in E.
Qed.

Lemma index_at (pre post : list string) (x : string) (start : nat) :
  start <= List.length pre ->
  ~ In x (skipn start pre) ->
  index (pre ++ x :: post) x start = Ok (List.length pre).
Proof.
  intros Hle Hn.
  destruct (index (pre ++ x :: post) x start) as [p|e] eqn:E.
  - apply index_Ok in E as (H1 & H2 & H3). f_equal.
    destruct (Nat.lt_trichotomy p (List.length pre)) as [Hlt|[Heq|Hgt]];
      [exfalso|exact Heq|exfalso].
    + rewrite nth_error_app1 in H2 by exact Hlt.
      apply Hn. eapply nth_error_In_skipn; eauto.
    + apply (H3 (List.length pre)); [lia|].
      rewrite nth_error_app2 by lia. now rewrite Nat.sub_diag.
  - exfalso. apply index_fails in E. apply E.
    apply (nth_error_In_skipn _ _ _ (List.length pre)); [|exact Hle].
    rewrite nth_error_app2 by lia. now rewrite Nat.sub_diag.
Qed.

(** X8: only the lines between the first [ENTITIES] and the next [ENDSEC]
    count: the reader returns what [decode] makes of them, whatever stands
    before and after. *)
Theorem reader_decodes_section {N : numbers} (file pre sec post : list string) :
  map strip file = pre ++ "ENTITIES" :: sec ++ "ENDSEC" :: post ->
  ~ In "ENTITIES" pre ->
  ~ In "ENDSEC" sec ->
  reader file = decode sec.
Proof.
  intros Hdata Hpre Hsec. unfold reader, entities_section.
  rewrite Hdata, (index_first pre _ "ENTITIES" Hpre). cbn [bind].
  replace (pre ++ "ENTITIES" :: sec ++ "ENDSEC" :: post)
    with ((pre ++ "ENTITIES" :: sec) ++ "ENDSEC" :: post)
    by (rewrite <- app_assoc; reflexivity).
  rewrite index_at.
  - cbn [bind]. f_equal. unfold slice.
    rewrite <- app_assoc. simpl app. rewrite skipn_past.
    rewrite length_app. simpl List.length.
    replace (List.length pre + S (List.length sec) - S (List.length pre))
      with (List.length sec) by lia.
    rewrite firstn_app, Nat.sub_diag, firstn_all. simpl.
    now rewrite app_nil_r.
  - rewrite length_app; simpl; lia.
  - rewrite skipn_past. exact Hsec.
Qed.

Lemma reader_decodes_section_witness :
  reader Samples.circle_then_line = decode circle_then_line_section.
Proof.
  apply (reader_decodes_section Samples.circle_then_line
           ["0"; "SECTION"; "2"] circle_then_line_section ["0"; "EOF"]).
  - reflexivity.
  - simpl. intros H. repeat (destruct H as [H|H]; [discriminate H|]). exact H.
  - simpl. intros H. repeat (destruct H as [H|H]; [discriminate H|]). exact H.
Defined.

Lemma positions_nil (x : string) (l : list string) :
  ~ In x l -> positions x l = [].
Proof.
  intros H. destruct (positions x l) as [|p ps] eqn:E; [reflexivity|].
  exfalso. apply H. apply (nth_error_In _ p).
  apply positions_spec. rewrite E. now left.
Qed.

(** X3: a section that holds none of the four markers, whatever else it
    holds, decodes to the empty list. *)
Theorem decode_without_markers {N : numbers} (lines : list string) :
  (forall m, In m entity_markers -> ~ In m lines) ->
  decode lines = Ok [].
Proof.
  intros H. unfold decode, _get_lines, _get_arcs, _get_circles, _get_polylines.
  rewrite !positions_nil by (apply H; simpl; tauto). reflexivity.
Qed.

Lemma decode_without_markers_witness :
  decode text_section = Ok [].
Proof.
  apply (decode_without_markers text_section).
  intros m Hm Hin. simpl in Hm.
  destruct Hm as [<-|[<-|[<-|[<-|[]]]]]; simpl in Hin;
    repeat (destruct Hin as [Hin|Hin]; [discriminate Hin|]); exact Hin.
Defined.

(** ** Circles *)

Lemma get_circle_located {N : numbers} (lines : list string) (i : nat) (bs : list entity) :
  get_circle lines i = Ok bs ->
  exists e, bs = [e] /\ index_of e = i /\ circle_located lines e.
Proof.
  unfold get_circle; intros H.
  apply bind_Ok in H as (p8 & E8 & H); cbv zeta in H.
  apply bind_Ok in H as (layer & El & H).
  apply bind_Ok in H as (p10 & E10 & H); cbv zeta in H.
  apply bind_Ok in H as (cx & Ecx & H).
  apply bind_Ok in H as (p20 & E20 & H); cbv zeta in H.
  apply bind_Ok in H as (cy & Ecy & H).
  apply bind_Ok in H as (p40 & E40 & H); cbv zeta in H.
  apply bind_Ok in H as (r & Er & H).
  injection H as <-. eexists; split; [reflexivity|]. split; [reflexivity|].
  exists p8, p10, p20, p40, layer, cx, cy, r. simpl index_of.
  repeat match goal with |- _ /\ _ => split end;
    try assumption; try reflexivity; now apply index_first_from.
Qed.

(** X1: in a successful decode there is exactly one entity per CIRCLE
    marker: the entities that carry the index of a CIRCLE marker are that
    one entity, the arc from angle 0 to 2 pi whose layer, centre and radius
    are the values that follow the codes 8, 10, 20 and 40 found one after
    the other behind the marker. *)
Theorem decode_circles {N : numbers} (lines : list string)
        (ents : list entity) (i : nat) :
  decode lines = Ok ents ->
  nth_error lines i = Some "CIRCLE" ->
  exists e, filter (has_index i) ents = [e] /\
            index_of e = i /\ circle_located lines e.
Proof.
  intros H Hi.
  destruct (decode_record lines ents "CIRCLE" get_circle i H) as (bs & Hbs & Hf);
    [simpl; tauto|exact Hi|].
  apply get_circle_located in Hbs as (c & -> & Hidx & Hc).
  exists c. auto.
Qed.

Lemma decode_circles_witness :
  exists e, filter (has_index 1) Samples.circle_then_line_entities = [e] /\
            index_of e = 1 /\
            circle_located circle_then_line_section e.
Proof.
  apply (decode_circles circle_then_line_section
                        Samples.circle_then_line_entities 1).
  - run. reflexivity.
  - reflexivity.
Defined.

(** X5: in a successful decode, the entities that carry the index of a
    marker are exactly those its record produced, in the order produced: the
    segments of a polyline come out in the order of its vertices. *)
Theorem decode_keeps_records {N : numbers} (lines : list string)
        (ents : list entity)
        (m : string) (scan : list string -> nat -> result (list entity))
        (i : nat) :
  decode lines = Ok ents ->
  In (m, scan) scans ->
  nth_error lines i = Some m ->
  exists bs, scan lines i = Ok bs /\ filter (has_index i) ents = bs.
Proof. apply decode_record. Qed.

Lemma decode_keeps_records_witness :
  exists bs,
    get_polyline Samples.triangle 1 = Ok bs /\
    filter (has_index 1)
      (triangle_lines (0 / 10, 0 / 10)%R (40 / 10, 0 / 10)%R
                      (0 / 10, 30 / 10)%R 1 "0") = bs.
Proof.
  apply (decode_keeps_records Samples.triangle _ "POLYLINE" get_polyline 1).
  - run. rewrite !Reqb_refl. run.
    assert (E : (0 / 10 = 0)%R) by lra.
    rewrite E, Reqb_atan_0. run. reflexivity.
  - simpl; tauto.
  - reflexivity.
Defined.

(** ** Shape of a polyline *)

Lemma for_each_length {A B : Type} (f : A -> result (list B)) (l : list A)
      (r : list B) :
  (forall a bs, f a = Ok bs -> List.length bs = 1) ->
  for_each f l = Ok r -> List.length r = List.length l.
Proof.
  intros Hf. revert r; induction l as [|a l IH]; simpl; intros r H.
  - now injection H as <-.
  - apply bind_Ok in H as (bs & Ea & H).
    apply bind_Ok in H as (rest & El & H). injection H as <-.
    rewrite length_app, (Hf a bs Ea), (IH rest El). reflexivity.
Qed.

Lemma zip3_length {A B C : Type} (l1 : list A) (l2 : list B) (l3 : list C) :
  List.length (zip3 l1 l2 l3)
  = Nat.min (List.length l1) (Nat.min (List.length l2) (List.length l3)).
Proof.
  revert l2 l3; induction l1 as [|a l1 IH]; intros [|b l2] [|c l3];
    simpl; try reflexivity.
  now rewrite IH.
Qed.

Lemma get_vertex_one {N : numbers} (lines : list string) (w : nat * nat)
      (bs : list (point * number)) :
  get_vertex lines w = Ok bs -> List.length bs = 1.
Proof.
  destruct w as [j k]; unfold get_vertex; intros H.
  do 5 (apply bind_Ok in H as (? & _ & H); cbv zeta in H).
  now injection H as <-.
Qed.

Lemma get_segment_one {N : numbers} (i : nat) (layer : string) (s : point * point * number)
      (bs : list entity) :
  get_segment i layer s = Ok bs -> List.length bs = 1.
Proof.
  destruct s as [[sp ep] a]; unfold get_segment.
  destruct (eqb a zero); intros H.
  - now injection H as <-.
  - apply bind_Ok in H as ([[[c r] a0] a1] & _ & H). now injection H as <-.
Qed.

(** The points and angles behind the segments of one polyline. *)
Lemma get_polyline_parts {N : numbers} (lines : list string) (i : nat) (bs : list entity) :
  get_polyline lines i = Ok bs ->
  exists layer pnts angles (closed : bool),
    List.length pnts = List.length (positions "VERTEX" lines) /\
    List.length angles = List.length pnts /\
    (closed = true -> pnts <> []) /\
    for_each (get_segment i layer)
             (zip3 (if closed then pnts ++ [hd (zero, zero) pnts] else pnts)
                   (tl (if closed then pnts ++ [hd (zero, zero) pnts] else pnts))
                   angles) = Ok bs.
Proof.
  unfold get_polyline; intros H.
  apply bind_Ok in H as (p8 & _ & H); cbv zeta in H.
  apply bind_Ok in H as (layer & _ & H).
  apply bind_Ok in H as (closed & _ & H).
  apply bind_Ok in H as (end_ & _ & H); cbv zeta in H.
  apply bind_Ok in H as (pa & Hpa & H).
  apply bind_Ok in H as (pnts' & Hp & H).
  exists layer, (map fst pa), (map snd pa), closed.
  assert (Hlen : List.length pa = List.length (positions "VERTEX" lines)).
  { rewrite (for_each_length _ _ _ (get_vertex_one lines) Hpa).
    rewrite length_combine, length_app.
    destruct (positions "VERTEX" lines) as [|v vi]; [reflexivity|].
    cbn [tl List.length]. rewrite Nat.add_1_r. apply Nat.min_id. }
  rewrite !length_map. repeat split; auto.
  - intros ->. destruct pa; [discriminate Hp|discriminate].
  - destruct closed.
    + destruct pa as [|[p a] pa]; [discriminate Hp|].
      simpl in Hp. injection Hp as <-. exact H.
    + injection Hp as <-. exact H.
Qed.

(** X6: a polyline yields as many segments as the section has VERTEX
    markers, or one less. *)
Theorem polyline_segment_count {N : numbers} (lines : list string) (i : nat)
        (bs : list entity) :
  get_polyline lines i = Ok bs ->
  List.length bs = List.length (positions "VERTEX" lines) \/
  S (List.length bs) = List.length (positions "VERTEX" lines).
Proof.
  intros H.
  apply get_polyline_parts in H
    as (layer & pnts & angles & closed & Hn & Ha & _ & H).
  apply (for_each_length _ _ _ (get_segment_one i layer)) in H.
  rewrite H, zip3_length, <- Hn, Ha.
  destruct closed.
  - left. rewrite length_tl, !length_app. cbn [List.length]. lia.
  - rewrite length_tl. unfold point in *.
    destruct pnts; cbn [List.length]; [left|right]; lia.
Qed.

Lemma polyline_segment_count_witness :
  List.length (triangle_lines (0 / 10, 0 / 10)%R (40 / 10, 0 / 10)%R
                              (0 / 10, 30 / 10)%R 1 "0")
  = List.length (positions "VERTEX" Samples.triangle) \/
  S (List.length (triangle_lines (0 / 10, 0 / 10)%R (40 / 10, 0 / 10)%R
                                 (0 / 10, 30 / 10)%R 1 "0"))
  = List.length (positions "VERTEX" Samples.triangle).
Proof.
  apply (polyline_segment_count Samples.triangle 1).
  run. rewrite !Reqb_refl. run.
  assert (E : (0 / 10 = 0)%R) by lra.
  rewrite E, Reqb_atan_0. run. reflexivity.
Defined.
Lemma get_segment_straight {N : numbers} (i : nat) (layer : string) (sp ep : point) (a : number)
      (bs : list entity) :
  get_segment i layer (sp, ep, a) = Ok bs ->
  forallb is_straight bs = true ->
  exists e, bs = [e] /\ start_point e = sp /\ end_point e = ep.
Proof.
  unfold get_segment. destruct (eqb a zero); intros H Hs.
  - injection H as <-. eexists; split; [reflexivity|].
    destruct sp, ep; simpl; auto.
  - apply bind_Ok in H as ([[[c r] a0] a1] & _ & H). injection H as <-.
    discriminate Hs.
Qed.

Lemma segments_follow {N : numbers} (i : nat) (layer : string) (pnts : list point)
      (angles : list number) (bs : list entity) :
  for_each (get_segment i layer) (zip3 pnts (tl pnts) angles) = Ok bs ->
  forallb is_straight bs = true ->
  follows pnts bs.
Proof.
  revert angles bs; induction pnts as [|p pnts IH]; intros angles bs H Hs.
  - simpl in H. injection H as <-. exact I.
  - destruct pnts as [|q pnts]; [simpl in H; injection H as <-; exact I|].
    destruct angles as [|a angles]; [simpl in H; injection H as <-; exact I|].
    cbn [zip3 tl for_each] in H.
    apply bind_Ok in H as (b1 & E1 & H).
    apply bind_Ok in H as (rest & Er & H). injection H as <-.
    rewrite forallb_app in Hs. apply andb_prop in Hs as [Hs1 Hs2].
    apply get_segment_straight in E1 as (e & -> & He1 & He2); [|exact Hs1].
    simpl. repeat split; auto. apply (IH angles rest); auto.
Qed.

Lemma follows_chained {N : numbers} (pnts : list point) (bs : list entity) :
  follows pnts bs -> chained bs.
Proof.
  revert pnts; induction bs as [|e bs IH]; intros pnts H; [exact I|].
  destruct pnts as [|p [|q pnts]]; try contradiction.
  destruct H as (_ & He & H).
  destruct bs as [|b bs]; [exact I|].
  split; [|apply (IH _ H)].
  destruct pnts as [|r pnts]; [contradiction|].
  destruct H as (Hb & _). congruence.
Qed.

Lemma follows_last {N : numbers} (pnts : list point) (bs : list entity) (d : point)
      (e0 : entity) :
  follows pnts bs -> bs <> [] ->
  S (List.length bs) = List.length pnts ->
  end_point (last bs e0) = last pnts d.
Proof.
  revert pnts; induction bs as [|e bs IH]; intros pnts H Hne Hlen;
    [congruence|].
  destruct pnts as [|p [|q pnts]]; try contradiction.
  destruct H as (_ & He & H).
  destruct bs as [|b bs].
  - destruct pnts; [exact He|discriminate Hlen].
  - change (last (e :: b :: bs) e0) with (last (b :: bs) e0).
    change (last (p :: q :: pnts) d) with (last (q :: pnts) d).
    apply IH; [exact H|discriminate|].
    simpl in Hlen |- *. lia.
Qed.

(** X7: a polyline whose segments are all straight decodes to a connected
    chain: every segment starts where the one before it ends; and when it
    has as many segments as the section has VERTEX markers, the chain is
    closed: the last segment ends where the first one starts. *)
Theorem polyline_chain {N : numbers} (lines : list string) (i : nat) (bs : list entity) :
  get_polyline lines i = Ok bs ->
  forallb is_straight bs = true ->
  chained bs /\
  (List.length bs = List.length (positions "VERTEX" lines) ->
   closed_chain bs).
Proof.
  intros H Hs.
  apply get_polyline_parts in H
    as (layer & pnts & angles & closed & Hn & Ha & Hne & H).
  pose proof (segments_follow _ _ _ _ _ H Hs) as Hf.
  pose proof (follows_chained _ _ Hf) as Hc.
  split; [exact Hc|]. intros Hlen. split; [exact Hc|].
  destruct bs as [|a bs]; [exact I|].
  apply (for_each_length _ _ _ (get_segment_one i layer)) in H.
  rewrite zip3_length, length_tl in H. unfold point in *.
  destruct closed.
  - specialize (Hne eq_refl).
    rewrite (follows_last _ _ (zero, zero) a Hf) by
        (try discriminate; rewrite length_app; cbn [List.length] in *; lia).
    rewrite last_last.
    destruct pnts as [|p pnts]; [congruence|].
    simpl in Hf. destruct (pnts ++ [p]); [contradiction|].
    destruct Hf as (Hstart & _). simpl. congruence.
  - exfalso. rewrite <- Hn in Hlen. rewrite Hlen in H.
    destruct pnts; cbn [List.length] in *; lia.
Qed.

Lemma polyline_chain_witness :
  chained (triangle_lines (0 / 10, 0 / 10)%R (40 / 10, 0 / 10)%R
                          (0 / 10, 30 / 10)%R 1 "0") /\
  (List.length (triangle_lines (0 / 10, 0 / 10)%R (40 / 10, 0 / 10)%R
                               (0 / 10, 30 / 10)%R 1 "0")
   = List.length (positions "VERTEX" Samples.triangle) ->
   closed_chain (triangle_lines (0 / 10, 0 / 10)%R (40 / 10, 0 / 10)%R
                                (0 / 10, 30 / 10)%R 1 "0")).
Proof.
  apply (polyline_chain Samples.triangle 1).
  - run. rewrite !Reqb_refl. run.
    assert (E : (0 / 10 = 0)%R) by lra.
    rewrite E, Reqb_atan_0. run. reflexivity.
  - reflexivity.
Defined.

End DxfFacts.

(** * Further properties of bounding boxes *)

Module BBoxProps.

Import BBox BBoxSpec BBoxMore BBoxFacts.
Local Open Scope Q_scope.
Local Open Scope num_scope.

(** ** What the constructor accepts, on any list *)

Lemma column_not_nil (ps : list tuple) (c : list num) (k : nat) :
  ps <> [] ->
  Forall2 (fun p h => nth_error p k = Some h) ps c -> c <> [].
Proof. intros Hne H. destruct H; [intros _; now apply Hne|discriminate]. Qed.

Lemma init_list_accepts (ps : list tuple) :
  succeeds (init_list ps) <-> accepted ps.
Proof.
  destruct ps as [|p rest].
  - split; [intros (b & H); discriminate H | contradiction].
  - unfold accepted.
    assert (Hne : p :: rest <> []) by discriminate.
    revert Hne. generalize (eq_refl : hd [] (p :: rest) = p).
    generalize (p :: rest) as ps. intros ps Hhd Hne.
    unfold init_list, zip_star. rewrite Hhd.
    destruct (Nat.eqb_spec (List.length p) 2) as [E2|N2];
      [|destruct (Nat.eqb_spec (List.length p) 3) as [E3|N3]].
    + rewrite E2. simpl zip_star_aux. split.
      * intros (b & Hb). split; [now left|]. apply heads_tl_Some.
        destruct (heads ps) as [xs|]; [|discriminate].
        destruct (heads (map (@tl num) ps)) as [ys|]; [|discriminate]. eauto.
      * intros [_ Hall]. apply heads_tl_Some in Hall as (xs & ys & Hx & Hy).
        rewrite Hx, Hy.
        apply heads_Forall2 in Hx. apply heads_Forall2 in Hy.
        apply heads_tl_Forall2 in Hy.
        pose proof (column_not_nil _ _ _ Hne Hx) as Hxs.
        pose proof (column_not_nil _ _ _ Hne Hy) as Hys.
        destruct (py_min_succeeds xs Hxs) as (x0 & ->).
        destruct (py_max_succeeds xs Hxs) as (x1 & ->).
        destruct (py_min_succeeds ys Hys) as (y0 & ->).
        destruct (py_max_succeeds ys Hys) as (y1 & ->).
        simpl. eexists; reflexivity.
    + rewrite E3. simpl zip_star_aux. split.
      * intros (b & Hb). split; [now right|]. apply heads_tl_tl_Some.
        destruct (heads ps) as [xs|]; [|discriminate].
        destruct (heads (map (@tl num) ps)) as [ys|]; [|discriminate].
        destruct (heads (map (@tl num) (map (@tl num) ps))) as [zs|];
          [|discriminate].
        eauto 6.
      * intros [_ Hall].
        apply heads_tl_tl_Some in Hall as (xs & ys & zs & Hx & Hy & Hz).
        rewrite Hx, Hy, Hz.
        apply heads_Forall2 in Hx. apply heads_Forall2 in Hy.
        apply heads_tl_Forall2 in Hy. apply heads_Forall2 in Hz.
        apply heads_tl_Forall2, heads_tl_Forall2 in Hz.
        pose proof (column_not_nil _ _ _ Hne Hx) as Hxs.
        pose proof (column_not_nil _ _ _ Hne Hy) as Hys.
        pose proof (column_not_nil _ _ _ Hne Hz) as Hzs.
        destruct (py_min_succeeds xs Hxs) as (x0 & ->).
        destruct (py_max_succeeds xs Hxs) as (x1 & ->).
        destruct (py_min_succeeds ys Hys) as (y0 & ->).
        destruct (py_max_succeeds ys Hys) as (y1 & ->).
        destruct (py_min_succeeds zs Hzs) as (z0 & ->).
        destruct (py_max_succeeds zs Hzs) as (z1 & ->).
        simpl. eexists; reflexivity.
    + split; [intros (b & H); discriminate|]. intros [[H|H] _]; contradiction.
Qed.

(** ** The bounds are attained *)

Lemma fold_min_In (l : list num) (x : num) :
  In (fold_left min_step l x) (x :: l).
Proof.
  revert x; induction l as [|a l IH]; simpl; intros x; [auto|].
  destruct (IH (min_step x a)) as [H|H]; [|auto].
  rewrite <- H. unfold min_step. destruct (num_ltb a x); auto.
Qed.

Lemma fold_max_In (l : list num) (x : num) :
  In (fold_left max_step l x) (x :: l).
Proof.
  revert x; induction l as [|a l IH]; simpl; intros x; [auto|].
  destruct (IH (max_step x a)) as [H|H]; [|auto].
  rewrite <- H. unfold max_step. destruct (num_ltb x a); auto.
Qed.

Lemma py_min_In (l : list num) (m : num) : py_min l = Ok m -> In m l.
Proof.
  destruct l as [|x l]; simpl; intros H; [discriminate|].
  injection H as <-. apply fold_min_In.
Qed.

Lemma py_max_In (l : list num) (m : num) : py_max l = Ok m -> In m l.
Proof.
  destruct l as [|x l]; simpl; intros H; [discriminate|].
  injection H as <-. apply fold_max_In.
Qed.

Lemma column_attained (k : nat) (ps : list tuple) (c : list num) (v : num) :
  Forall2 (fun p h => nth_error p k = Some h) ps c ->
  In v c -> attained ps k v.
Proof.
  induction 1 as [|p h ps c Hp _ IH]; simpl; intros Hin; [contradiction|].
  destruct Hin as [->|Hin].
  - exists p. split; [now left|exact Hp].
  - destruct (IH Hin) as (q & Hq & Hv). exists q. split; [now right|exact Hv].
Qed.

Lemma init_list_tight (ps : list tuple) (b : BBox) :
  init_list ps = Ok b -> tight b ps.
Proof.
  intros H. apply init_list_columns in H
    as (xs & ys & Hx & Hy & Hx0 & Hx1 & Hy0 & Hy1 & Hz).
  apply heads_Forall2 in Hx.
  apply heads_Forall2, heads_tl_Forall2 in Hy.
  apply py_min_In in Hx0, Hy0. apply py_max_In in Hx1, Hy1.
  unfold tight.
  repeat (split; [eapply column_attained; eassumption|]).
  destruct Hz as [(_ & Hz0 & Hz1 & _)
                 |(zs & z0 & z1 & Hzs & Hm0 & Hm1 & _ & Hz0 & Hz1 & _)].
  - split; intros z E; congruence.
  - apply heads_Forall2, heads_tl_Forall2, heads_tl_Forall2 in Hzs.
    apply py_min_In in Hm0. apply py_max_In in Hm1.
    split; intros z E.
    + rewrite Hz0 in E; injection E as <-. eapply column_attained; eauto.
    + rewrite Hz1 in E; injection E as <-. eapply column_attained; eauto.
Qed.

(** X9: the box built from a list of points whose coordinates are numbers,
    none of them NaN, holds every point of the list, and each of its bounds
    is a coordinate of one of the points: it is the smallest box around
    them. *)
Theorem init_exact (ps : list tuple) (b : BBox) :
  numbers ps ->
  init (Points ps) = Ok b ->
  Forall (holds b) ps /\ tight b ps.
Proof.
  intros Hn H. apply init_is_init_list in H. simpl in H. split.
  - now apply init_list_bounds in H; [|apply numbers_clean].
  - now apply init_list_tight.
Qed.

Lemma init_exact_witness :
  Forall (holds (mkBBox (-1) 1 2 5 None None 2)) [[1; 2]; [0; 5]; [-1; 3]] /\
  tight (mkBBox (-1) 1 2 5 None None 2) [[1; 2]; [0; 5]; [-1; 3]].
Proof.
  apply (init_exact [[1; 2]; [0; 5]; [-1; 3]]).
  - repeat constructor.
  - reflexivity.
Defined.

(** ** Points inside *)

Lemma holds_inside (b : BBox) (p : tuple) :
  ordered b -> holds b p ->
  (if (dim b =? 2)%nat then inside2 b p else inside3 b p) = Ok true.
Proof.
  intros (_ & _ & Oz) ((x & Hx & Bx) & (y & Hy & By) & Hz).
  unfold inside2, inside3, getitem. rewrite Hx, Hy. cbn [bind].
  rewrite (between_true _ _ _ Bx), (between_true _ _ _ By).
  destruct (minz b) as [z0|], (maxz b) as [z1|]; try contradiction.
  - destruct Oz as [-> _]. change (3 =? 2)%nat with false. cbv iota.
    destruct (Hz z0 z1 eq_refl eq_refl) as (z & Ez & Bz).
    rewrite Ez. cbn [bind]. now rewrite (between_true _ _ _ Bz).
  - rewrite Oz. reflexivity.
Qed.

Lemma inside_all (b : BBox) (ps : list tuple) :
  ordered b -> Forall (holds b) ps ->
  for_each (fun p => v <- (if (dim b =? 2)%nat then inside2 b p
                           else inside3 b p) ;; Ok [v]) ps
  = Ok (map (fun _ => true) ps).
Proof.
  intros Ho Hall. apply (for_each_map _ (fun _ => true)).
  rewrite Forall_forall in Hall. intros p Hp. now apply holds_inside, Hall.
Qed.

(** X10: every point a box was built from is inside it, when the
    coordinates are numbers, none of them NaN: asked about the list it was
    built from, the box answers true for each point. *)
Theorem init_then_inside (ps : list tuple) (b : BBox) :
  numbers ps ->
  init (Points ps) = Ok b ->
  inside b (Points ps) = Ok (Many (map (fun _ => true) ps)).
Proof.
  intros Hn H. apply init_is_init_list in H. simpl in H.
  pose proof (init_list_bounds ps b H (numbers_clean _ ps Hn))
    as (Ho & Hd & Hall).
  unfold inside. cbn [is_single first_len as_list].
  destruct ps as [|p rest]; [discriminate H|].
  cbn [getitem nth_error bind]. simpl in Hd. rewrite <- Hd, Nat.eqb_refl.
  cbn [negb]. now rewrite (inside_all b _ Ho Hall).
Qed.

Lemma init_then_inside_witness :
  inside (mkBBox (-1) 1 2 5 None None 2) (Points [[1; 2]; [0; 5]; [-1; 3]])
  = Ok (Many (map (fun _ => true) [[1; 2]; [0; 5]; [-1; 3]])).
Proof.
  apply (init_then_inside [[1; 2]; [0; 5]; [-1; 3]]).
  - repeat constructor.
  - reflexivity.
Defined.

(** ** A bare point *)

Lemma num_sub_self (a : num) : finite a = true -> num_sub a a == 0.
Proof.
  destruct a; simpl; intros H; try discriminate H.
  apply Qeq_bool_iff. unfold inject_Z. Lqa.lra.
Qed.

(** X11: a bare point of 2 or 3 numbers is taken as the list of that one
    point and gives a box of its dimension, whose width and height are zero
    when the coordinates are finite; the empty tuple is refused as "no
    points", and a bare tuple of any other length fails with a type
    error. *)
Theorem init_bare (p : tuple) :
  (p = [] -> init (Bare p) = Raise (ValueErrorMsg "no points to create BBox"))
  /\
  ((List.length p = 2 \/ List.length p = 3)%nat ->
   init (Bare p) = init (Points [p]) /\
   exists b, init (Bare p) = Ok b /\ dim b = List.length p /\
             (Forall (fun v => finite v = true) p ->
              width b == 0 /\ height b == 0))
  /\
  (p <> [] -> List.length p <> 2%nat -> List.length p <> 3%nat ->
   init (Bare p) = Raise TypeError).
Proof.
  split; [intros ->; reflexivity|]. split.
  - intros Hlen.
    destruct p as [|x [|y [|z [|w p]]]]; simpl in Hlen; try lia.
    + split; [reflexivity|]. eexists. split; [reflexivity|].
      split; [reflexivity|]. intros Hf.
      inversion Hf as [|? ? Fx Hf1]; subst.
      inversion Hf1 as [|? ? Fy _]; subst.
      unfold width, height; simpl. split; now apply num_sub_self.
    + split; [reflexivity|]. eexists. split; [reflexivity|].
      split; [reflexivity|]. intros Hf.
      inversion Hf as [|? ? Fx Hf1]; subst.
      inversion Hf1 as [|? ? Fy _]; subst.
      unfold width, height; simpl. split; now apply num_sub_self.
  - intros Hne H2 H3. unfold init.
    destruct p as [|x p]; [congruence|]. cbn [is_empty]. unfold first_len.
    assert (Es : is_single (Bare (x :: p)) = false).
    { unfold is_single.
      destruct (Nat.eqb_spec (List.length (x :: p)) 2); [contradiction|].
      destruct (Nat.eqb_spec (List.length (x :: p)) 3); [contradiction|].
      reflexivity. }
    rewrite Es. reflexivity.
Qed.

Lemma init_bare_witness :
  init (Bare [1; 2]) = init (Points [[1; 2]]) /\
  exists b, init (Bare [1; 2]) = Ok b /\ dim b = List.length [1; 2] /\
            (Forall (fun v => finite v = true) [1; 2] ->
             width b == 0 /\ height b == 0).
Proof.
  apply (proj1 (proj2 (init_bare [1; 2]))). left; reflexivity.
Defined.

(** ** Growing *)

Lemma first_len_Points (ps : list tuple) :
  first_len (Points ps)
  = match ps with
    | [] => Raise IndexError
    | p :: _ => Ok (List.length p)
    end.
Proof. destruct ps; reflexivity. Qed.

Lemma Forall_app_corners (d : nat) (ps cs : list tuple) :
  Forall (fun q => List.length q = d) cs ->
  (Forall (fun q => (d <= List.length q)%nat) (ps ++ cs) <->
   Forall (fun q => (d <= List.length q)%nat) ps).
Proof.
  intros Hc. rewrite Forall_app. split; [tauto|]. intros H. split; [exact H|].
  eapply Forall_impl; [|exact Hc]. simpl; intros; lia.
Qed.



(** The points handed to a successful [update], and the box it built. *)
Lemma update_parts (b b' : BBox) (pnts : pnts_arg) :
  ordered b -> update b pnts = Ok b' ->
  exists corners,
    init_list (as_list pnts ++ corners) = Ok b' /\
    first_len pnts = Ok (dim b) /\
    Forall (clean (dim b)) corners /\
    (forall v, attained corners 0 v -> minx b <= v <= maxx b) /\
    (forall v, attained corners 1 v -> miny b <= v <= maxy b) /\
    (forall v, attained corners 2 v ->
               exists z0 z1, minz b = Some z0 /\ maxz b = Some z1 /\
                             z0 <= v <= z1).
Proof.
  intros Ho H.
  destruct (update_is_init_list b b' pnts (ordered_shaped b Ho) H) as [Hn Hi].
  eexists. split; [exact Hi|]. split; [exact Hn|].
  split; [now apply ordered_corners_clean|].
  destruct Ho as (Ox & Oy & Oz).
  pose proof (num_le_numbers _ _ Ox) as [X0 X1].
  pose proof (num_le_numbers _ _ Oy) as [Y0 Y1].
  assert (Rx0 := num_le_refl _ X0). assert (Rx1 := num_le_refl _ X1).
  assert (Ry0 := num_le_refl _ Y0). assert (Ry1 := num_le_refl _ Y1).
  destruct (minz b) as [z0|] eqn:E0, (maxz b) as [z1|] eqn:E1;
    try contradiction.
  - destruct Oz as [_ Oz].
    pose proof (num_le_numbers _ _ Oz) as [Z0 Z1].
    assert (Rz0 := num_le_refl _ Z0). assert (Rz1 := num_le_refl _ Z1).
    split; [|split].
    + intros v (q & [<-|[<-|[]]] & Hv); simpl in Hv;
        injection Hv as <-; split; assumption.
    + intros v (q & [<-|[<-|[]]] & Hv); simpl in Hv;
        injection Hv as <-; split; assumption.
    + intros v (q & [<-|[<-|[]]] & Hv); simpl in Hv;
        injection Hv as <-; exists z0, z1; repeat split; assumption.
  - split; [|split].
    + intros v (q & [<-|[<-|[]]] & Hv); simpl in Hv;
        injection Hv as <-; split; assumption.
    + intros v (q & [<-|[<-|[]]] & Hv); simpl in Hv;
        injection Hv as <-; split; assumption.
    + intros v (q & [<-|[<-|[]]] & Hv); simpl in Hv; discriminate Hv.
Qed.

Lemma contains_grown (b b' : BBox) (p : tuple) :
  grown b b' -> contains b p = true -> contains b' p = true.
Proof.
  intros (X0 & X1 & Y0 & Y1 & Z0 & Z1) H. unfold contains in *.
  assert (Hb : forall a v c a' c', a' <= a -> c <= c' ->
                 between a v c = true -> between a' v c' = true).
  { intros a v c a' c' Ha Hc Hv. apply between_bounds in Hv as [H1 H2].
    apply between_true. split; eapply num_le_trans; eauto. }
  destruct p as [|x [|y [|z [|w p]]]]; try discriminate H.
  - apply andb_prop in H as [Hx Hy].
    rewrite (Hb _ _ _ _ _ X0 X1 Hx), (Hb _ _ _ _ _ Y0 Y1 Hy).
    destruct (minz b'), (maxz b'); reflexivity.
  - destruct (minz b) as [z0|], (maxz b) as [z1|]; try discriminate H.
    destruct (minz b') as [z0'|], (maxz b') as [z1'|]; try contradiction.
    simpl in Z0, Z1.
    apply andb_prop in H as [H Hz]. apply andb_prop in H as [Hx Hy].
    now rewrite (Hb _ _ _ _ _ X0 X1 Hx), (Hb _ _ _ _ _ Y0 Y1 Hy),
      (Hb _ _ _ _ _ Z0 Z1 Hz).
Qed.

(** X13: growing by points whose coordinates are numbers, none of them
    NaN, loses nothing: every point that was inside the box is inside the
    grown box. *)
Theorem update_keeps_inside (b b' : BBox) (pnts : pnts_arg) (p : tuple) :
  ordered b ->
  numbers (as_list pnts) ->
  update b pnts = Ok b' ->
  contains b p = true ->
  contains b' p = true.
Proof.
  intros Ho Hn H. apply contains_grown.
  apply (update_grown b b' pnts Ho); [|exact H]. now apply numbers_clean.
Qed.

Lemma update_keeps_inside_witness :
  contains (mkBBox 0 5 (-1) 1 None None 2) [Fin (1 # 2); 1] = true.
Proof.
  apply (update_keeps_inside unit_square _ (Points [[5; -1]])).
  - unfold ordered; simpl. repeat split; reflexivity.
  - repeat constructor.
  - reflexivity.
  - reflexivity.
Defined.

(** X14: after growing a box by some points whose coordinates are numbers,
    none of them NaN, each of the points is inside: the grown box answers
    true for the single point, or for every point of the list, it was grown
    by. *)
Theorem update_then_inside (b b' : BBox) (pnts : pnts_arg) :
  ordered b ->
  numbers (as_list pnts) ->
  update b pnts = Ok b' ->
  inside b' pnts = Ok (all_inside pnts).
Proof.
  intros Ho Hnum H.
  destruct (update_parts b b' pnts Ho H) as (cs & Hi & Hn & Hcs & _).
  destruct (first_len_hd _ _ Hn) as (p & rest & Hp & Hlen).
  assert (Hhd : List.length (hd [] (as_list pnts ++ cs)) = dim b)
    by (rewrite Hp; cbn [app hd]; exact Hlen).
  pose proof (init_list_bounds _ _ Hi) as Hb. rewrite Hhd in Hb.
  destruct Hb as (Ho' & Hd & Hall).
  { apply Forall_app. split; [now apply numbers_clean|exact Hcs]. }
  apply Forall_app in Hall as [Hall _].
  unfold inside. rewrite Hn. cbn [bind].
  rewrite (inside_all b' _ Ho' Hall).
  replace (dim b =? dim b')%nat with true
    by (symmetry; apply Nat.eqb_eq; congruence).
  cbn [negb bind].
  destruct pnts as [ps|q]; simpl.
  - reflexivity.
  - destruct ((List.length q =? 2)%nat || (List.length q =? 3)%nat) eqn:Es.
    + reflexivity.
    + simpl in Hn. rewrite Es in Hn. destruct (getitem q 0); discriminate.
Qed.

Lemma update_then_inside_witness :
  inside (mkBBox 0 5 (-1) 1 None None 2) (Bare [5; -1])
  = Ok (all_inside (Bare [5; -1])).
Proof.
  apply (update_then_inside unit_square).
  - unfold ordered; simpl. repeat split; reflexivity.
  - repeat constructor.
  - reflexivity.
Defined.

Lemma contains_coords (b : BBox) (q : tuple) :
  contains b q = true ->
  (forall v, nth_error q 0 = Some v -> minx b <= v <= maxx b) /\
  (forall v, nth_error q 1 = Some v -> miny b <= v <= maxy b) /\
  (forall v, nth_error q 2 = Some v ->
             exists z0 z1, minz b = Some z0 /\ maxz b = Some z1 /\
                           z0 <= v <= z1).
Proof.
  unfold contains. destruct q as [|x [|y [|z [|w q]]]]; try discriminate.
  - intros H. apply andb_prop in H as [Hx Hy].
    apply between_bounds in Hx, Hy.
    split; [|split]; intros v Hv; simpl in Hv; try discriminate Hv;
      injection Hv as <-; tauto.
  - destruct (minz b) as [z0|], (maxz b) as [z1|]; try discriminate.
    intros H. apply andb_prop in H as [H Hz]. apply andb_prop in H as [Hx Hy].
    apply between_bounds in Hx, Hy, Hz.
    split; [|split]; intros v Hv; simpl in Hv; injection Hv as <-;
      try tauto. exists z0, z1. auto.
Qed.

(** A point inside a box has numbers for coordinates. *)
Lemma contains_clean (b : BBox) (d : nat) (q : tuple) :
  contains b q = true -> clean d q.
Proof.
  intros H. pose proof (contains_coords b q H) as (C0 & C1 & C2).
  assert (Hlen : (List.length q <= 3)%nat).
  { unfold contains in H.
    destruct q as [|x [|y [|z [|w q]]]]; try discriminate H; simpl; lia. }
  intros [|[|[|k]]] v _ Hv.
  - now apply (num_le_numbers _ _ (proj1 (C0 v Hv))).
  - now apply (num_le_numbers _ _ (proj1 (C1 v Hv))).
  - destruct (C2 v Hv) as (z0 & z1 & _ & _ & Hz & _).
    now apply (num_le_numbers _ _ Hz).
  - assert (Hk : (S (S (S k)) < List.length q)%nat)
      by (apply nth_error_Some; congruence).
    lia.
Qed.

(** X15: growing a box by points that are already inside it changes none
    of its bounds. *)
Theorem update_inside_unchanged (b b' : BBox) (pnts : pnts_arg) :
  ordered b ->
  update b pnts = Ok b' ->
  Forall (fun p => contains b p = true) (as_list pnts) ->
  same_bounds b b'.
Proof.
  intros Ho H Hin.
  assert (Hcl : Forall (clean (dim b)) (as_list pnts)).
  { eapply Forall_impl; [|exact Hin]. intros q. apply contains_clean. }
  destruct (update_grown b b' pnts Ho Hcl H)
    as (Ho' & X0 & X1 & Y0 & Y1 & Z0 & Z1).
  destruct (update_parts b b' pnts Ho H)
    as (cs & Hi & Hn & _ & Cx & Cy & Cz).
  pose proof (init_list_tight _ _ Hi) as (Tx0 & Tx1 & Ty0 & Ty1 & Tz0 & Tz1).
  pose proof (init_list_shaped _ _ Hi) as (_ & Hd).
  rewrite Forall_forall in Hin.
  assert (Ax : forall v, attained (as_list pnts ++ cs) 0 v ->
                         minx b <= v <= maxx b).
  { intros v (q & Hq & Hv). apply in_app_or in Hq as [Hq|Hq].
    - now apply (contains_coords b q (Hin q Hq)).
    - apply Cx. now exists q. }
  assert (Ay : forall v, attained (as_list pnts ++ cs) 1 v ->
                         miny b <= v <= maxy b).
  { intros v (q & Hq & Hv). apply in_app_or in Hq as [Hq|Hq].
    - now apply (contains_coords b q (Hin q Hq)).
    - apply Cy. now exists q. }
  assert (Az : forall v, attained (as_list pnts ++ cs) 2 v ->
                         exists z0 z1, minz b = Some z0 /\ maxz b = Some z1 /\
                                       z0 <= v <= z1).
  { intros v (q & Hq & Hv). apply in_app_or in Hq as [Hq|Hq].
    - now apply (contains_coords b q (Hin q Hq)).
    - apply Cz. now exists q. }
  destruct (first_len_hd _ _ Hn) as (p & rest & Hp & Hlen).
  rewrite Hp in Hd. simpl in Hd.
  unfold same_bounds.
  split; [apply num_le_antisym; [apply (Ax _ Tx0)|exact X0]|].
  split; [apply num_le_antisym; [exact X1|apply (Ax _ Tx1)]|].
  split; [apply num_le_antisym; [apply (Ay _ Ty0)|exact Y0]|].
  split; [apply num_le_antisym; [exact Y1|apply (Ay _ Ty1)]|].
  split; [|split; [|congruence]].
  - destruct (minz b') as [z0'|] eqn:E0', (minz b) as [z0|] eqn:E0;
      try contradiction; simpl in *; [|exact I].
    destruct (Az _ (Tz0 _ eq_refl)) as (a0 & a1 & Ea0 & _ & Hb & _).
    try rewrite E0 in Ea0. injection Ea0 as <-. now apply num_le_antisym.
  - destruct (maxz b') as [z1'|] eqn:E1', (maxz b) as [z1|] eqn:E1;
      try contradiction; simpl in *; [|exact I].
    destruct (Az _ (Tz1 _ eq_refl)) as (a0 & a1 & _ & Ea1 & _ & Hb).
    try rewrite E1 in Ea1. injection Ea1 as <-. now apply num_le_antisym.
Qed.

Lemma update_inside_unchanged_witness :
  same_bounds unit_square (mkBBox 0 1 0 1 None None 2).
Proof.
  apply (update_inside_unchanged unit_square _
           (Points [[Fin (1 # 2); 1]; [0; Fin (1 # 3)]])).
  - unfold ordered; simpl. repeat split; reflexivity.
  - reflexivity.
  - repeat constructor.
Defined.

(** ** Merging *)

Lemma points_corners (b : BBox) :
  ordered b -> points b = Ok [corner_lo b; corner_hi b].
Proof.
  intros (_ & _ & Oz). unfold points, corner_lo, corner_hi.
  destruct (minz b) as [z0|], (maxz b) as [z1|]; try contradiction.
  - destruct Oz as [-> _]. reflexivity.
  - rewrite Oz. reflexivity.
Qed.

Lemma for_each_points (bbs : list BBox) :
  Forall ordered bbs -> for_each points bbs = Ok (corners bbs).
Proof.
  induction 1 as [|b bbs Hb _ IH]; simpl; [reflexivity|].
  rewrite (points_corners b Hb). cbn [bind]. rewrite IH. reflexivity.
Qed.

Lemma corner_length (b : BBox) :
  ordered b ->
  List.length (corner_lo b) = dim b /\ List.length (corner_hi b) = dim b.
Proof.
  intros (_ & _ & Oz). unfold corner_lo, corner_hi.
  destruct (minz b), (maxz b); try contradiction; simpl; intuition.
Qed.

Lemma corners_In (bbs : list BBox) (q : tuple) :
  In q (corners bbs) <->
  exists b, In b bbs /\ (q = corner_lo b \/ q = corner_hi b).
Proof.
  unfold corners. rewrite in_flat_map. split.
  - intros (b & Hb & [<-|[<-|[]]]); eauto.
  - intros (b & Hb & [-> | ->]); exists b; simpl; auto.
Qed.

Lemma corners_clean (bbs : list BBox) (d : nat) :
  Forall ordered bbs -> Forall (clean d) (corners bbs).
Proof.
  intros Ho. apply Forall_forall. intros q Hq.
  apply corners_In in Hq as (b & Hb & Hq).
  rewrite Forall_forall in Ho.
  pose proof (ordered_corners_clean b d (Ho b Hb)) as Hc.
  inversion Hc as [|? ? Hlo Hc1]; subst.
  inversion Hc1 as [|? ? Hhi _]; subst.
  destruct Hq as [-> | ->]; assumption.
Qed.

Lemma merge_is_init_list (bbs : list BBox) :
  bbs <> [] -> Forall ordered bbs ->
  merge bbs = init_list (corners bbs).
Proof.
  intros Hne Ho. unfold merge. rewrite (for_each_points bbs Ho). cbn [bind].
  destruct bbs as [|b bbs]; [congruence|]. reflexivity.
Qed.

Lemma holds_corners (m b : BBox) :
  ordered b -> ordered m -> dim m = dim b ->
  holds m (corner_lo b) -> holds m (corner_hi b) -> grown b m.
Proof.
  intros (_ & _ & Oz) (_ & _ & Oz') Hd
         ((x & Hx & Bx) & (y & Hy & By) & Hz)
         ((x' & Hx' & Bx') & (y' & Hy' & By') & Hz').
  unfold corner_lo, corner_hi in *. simpl in Hx, Hy, Hx', Hy'.
  injection Hx as <-; injection Hy as <-;
    injection Hx' as <-; injection Hy' as <-.
  unfold grown.
  destruct (minz m) as [m0|], (maxz m) as [m1|]; try contradiction;
    destruct (minz b) as [z0|], (maxz b) as [z1|]; try contradiction;
    simpl; try (destruct Oz; destruct Oz'; congruence);
    try (destruct Oz; congruence); try (destruct Oz'; congruence).
  - destruct (Hz m0 m1 eq_refl eq_refl) as (z & Ez & Bz).
    destruct (Hz' m0 m1 eq_refl eq_refl) as (z' & Ez' & Bz').
    simpl in Ez, Ez'. injection Ez as <-; injection Ez' as <-. intuition.
  - intuition.
Qed.





End BBoxProps.
